(** * FFLogsUploader: the parser bridge [src/parser/fflogs_parser.py]

    A shallow embedding of [run_parser] and of the drain thread it starts,
    with the properties of the worker protocol proved over it.

    Modelling conventions.
    - A Python [str] is a Rocq [string]; its characters are the code points
      below 256.
    - A decoded JSON value is a [json]; numbers are the integers (a JSON
      number with a fraction or an exponent is a Python [float] and is outside
      this model).  A Python [dict] is an association list in insertion order.
    - [time.time()] readings are integers, in milliseconds.
    - What the operating system, the worker and the drain thread do is read
      from a [world]: whether the bundle is there, what [open] and [Popen] and
      each write to the worker's stdin do, and, for every turn of the
      collection loop, what the clock shows and what [ipc_queue.get] gives. *)

From Stdlib Require Import String Ascii List ZArith Bool Arith Lia.
From Stdlib Require Import DecimalString DecimalZ DecimalPos DecimalFacts.
Import ListNotations.

Local Open Scope string_scope.
Local Open Scope list_scope.

(** ** Python values *)

Module Py.

Unset Elimination Schemes.
Inductive json : Type :=
| JNull                                  (* None *)
| JBool (b : bool)
| JInt (n : Z)
| JStr (s : string)
| JList (l : list json)
| JDict (kvs : list (string * json)).
Set Elimination Schemes.

Section json_induction.
Variable P : json -> Prop.
Hypothesis Hnull : P JNull.
Hypothesis Hbool : forall b, P (JBool b).
Hypothesis Hnum : forall n, P (JInt n).
Hypothesis Hstr : forall s, P (JStr s).
Hypothesis Hlist : forall l, Forall P l -> P (JList l).
Hypothesis Hdict : forall kvs, Forall (fun kv => P (snd kv)) kvs -> P (JDict kvs).

Fixpoint json_ind (v : json) : P v :=
  match v with
  | JNull => Hnull
  | JBool b => Hbool b
  | JInt n => Hnum n
  | JStr s => Hstr s
  | JList l =>
      Hlist l ((fix all (l : list json) : Forall P l :=
                  match l with
                  | [] => Forall_nil _
                  | x :: r => Forall_cons x (json_ind x) (all r)
                  end) l)
  | JDict kvs =>
      Hdict kvs ((fix all (l : list (string * json)) : Forall (fun kv => P (snd kv)) l :=
                    match l with
                    | [] => Forall_nil _
                    | x :: r => Forall_cons x (json_ind (snd x)) (all r)
                    end) kvs)
  end.
End json_induction.

(** [bool(v)]: what [if v] and [not v] test. *)
Definition truthy (v : json) : bool :=
  match v with
  | JNull => false
  | JBool b => b
  | JInt n => negb (Z.eqb n 0)
  | JStr s => negb (String.eqb s "")
  | JList l => match l with [] => false | _ => true end
  | JDict kvs => match kvs with [] => false | _ => true end
  end.

(** [v == s] for a string literal [s]. *)
Definition eq_str (v : json) (s : string) : bool :=
  match v with
  | JStr t => String.eqb t s
  | _ => false
  end.

(** [type(v).__name__], as it appears in an [AttributeError]. *)
Definition type_name (v : json) : string :=
  match v with
  | JNull => "NoneType"
  | JBool _ => "bool"
  | JInt _ => "int"
  | JStr _ => "str"
  | JList _ => "list"
  | JDict _ => "dict"
  end.

(** [d.get(k, default)] *)
Fixpoint dict_get (d : list (string * json)) (k : string) (default : json) : json :=
  match d with
  | [] => default
  | (k', v) :: r => if String.eqb k' k then v else dict_get r k default
  end.

(** [d[k] = v]: a key already present keeps its place. *)
Fixpoint dict_set (d : list (string * json)) (k : string) (v : json) : list (string * json) :=
  match d with
  | [] => [(k, v)]
  | (k', v') :: r => if String.eqb k' k then (k', v) :: r else (k', v') :: dict_set r k v
  end.

Definition has_key (d : list (string * json)) (k : string) : bool :=
  existsb (fun kv => String.eqb (fst kv) k) d.

Record exn := Exn { exn_class : string; exn_text : string }.

(** *** [str] methods *)

Definition dquote : ascii := "034"%char.
Definition newline : ascii := "010"%char.

Definition in_chars (cs : string) (c : ascii) : bool :=
  existsb (Ascii.eqb c) (list_ascii_of_string cs).

(** [c.isspace()] on the code points below 256. *)
Definition isspace (c : ascii) : bool :=
  let n := N_of_ascii c in
  ((9 <=? n) && (n <=? 13) || (28 <=? n) && (n <=? 32) || (n =? 133) || (n =? 160))%N.

Fixpoint lstrip (p : ascii -> bool) (s : string) : string :=
  match s with
  | String c r => if p c then lstrip p r else s
  | EmptyString => EmptyString
  end.

Fixpoint rstrip (p : ascii -> bool) (s : string) : string :=
  match s with
  | String c r =>
      match rstrip p r with
      | EmptyString => if p c then EmptyString else String c EmptyString
      | r' => String c r'
      end
  | EmptyString => EmptyString
  end.

(** [s.strip()] *)
Definition strip (s : string) : string := rstrip isspace (lstrip isspace s).

(** [s[n:]] *)
Fixpoint slice_from (n : nat) (s : string) : string :=
  match n, s with
  | S n', String _ r => slice_from n' r
  | _, _ => s
  end.

(** [s.startswith(p)] *)
Fixpoint startswith (s p : string) {struct p} : bool :=
  match p with
  | EmptyString => true
  | String c p' =>
      match s with
      | String x s' => Ascii.eqb x c && startswith s' p'
      | EmptyString => false
      end
  end.

Fixpoint join (sep : string) (l : list string) : string :=
  match l with
  | [] => ""
  | [x] => x
  | x :: r => x ++ sep ++ join sep r
  end%string.

End Py.
Import Py.

(** ** The [json] module of the Python library, as [run_parser] calls it

    [dumps] is [json.dumps] with its defaults ([ensure_ascii], separators
    [", "] and [": "], keys in insertion order); [loads] is [json.loads]:
    [Some v] when it returns [v], [None] when it raises.  A document holding
    a float or a [\u] escape of a code point above 255 is outside the model
    and is [None] here as well. *)

Module Json.

Import Decimal.

(** *** Serialising *)

Definition hex_digit (n : N) : ascii :=
  ascii_of_N (if (n <? 10)%N then 48 + n else 87 + n).

(** [ESCAPE_ASCII.sub(replace, c)] for one character. *)
Definition escape_char (c : ascii) : string :=
  let n := N_of_ascii c in
  if Ascii.eqb c dquote then String "\" (String dquote "")
  else if Ascii.eqb c "\" then "\\"
  else if (n =? 10)%N then "\n"
  else if (n =? 13)%N then "\r"
  else if (n =? 9)%N then "\t"
  else if (n =? 8)%N then "\b"
  else if (n =? 12)%N then "\f"
  else if (32 <=? n)%N && (n <=? 126)%N then String c ""
  else String "\" (String "u" (String "0" (String "0"
         (String (hex_digit (n / 16)) (String (hex_digit (n mod 16)) ""))))).

Fixpoint escape (s : string) : string :=
  match s with
  | EmptyString => EmptyString
  | String c r => (escape_char c ++ escape r)%string
  end.

(** [encode_basestring_ascii] *)
Definition dump_str (s : string) : string :=
  String dquote (escape s ++ String dquote "")%string.

(** [repr] of an [int]. *)
Definition dump_int (n : Z) : string :=
  match Z.to_int n with
  | Pos u => DecimalString.NilEmpty.string_of_uint u
  | Neg u => String "-" (DecimalString.NilEmpty.string_of_uint u)
  end.

Fixpoint dumps (v : json) : string :=
  match v with
  | JNull => "null"
  | JBool true => "true"
  | JBool false => "false"
  | JInt n => dump_int n
  | JStr s => dump_str s
  | JList l => "[" ++ join ", " (map dumps l) ++ "]"
  | JDict kvs =>
      "{" ++ join ", " (map (fun kv => dump_str (fst kv) ++ ": " ++ dumps (snd kv)) kvs) ++ "}"
  end%string.

(** *** Parsing *)

(** [WHITESPACE.match] *)
Definition is_ws (c : ascii) : bool :=
  in_chars (String " " (String "009" (String "010" (String "013" "")))) c.

Definition skip_ws (s : string) : string := lstrip is_ws s.

Definition hex_value (c : ascii) : option N :=
  let n := N_of_ascii c in
  if (48 <=? n)%N && (n <=? 57)%N then Some (n - 48)%N
  else if (97 <=? n)%N && (n <=? 102)%N then Some (n - 87)%N
  else if (65 <=? n)%N && (n <=? 70)%N then Some (n - 55)%N
  else None.

Definition hex4 (a b c d : ascii) : option N :=
  match hex_value a, hex_value b, hex_value c, hex_value d with
  | Some x, Some y, Some z, Some t => Some (((x * 16 + y) * 16 + z) * 16 + t)%N
  | _, _, _, _ => None
  end.

(** The [BACKSLASH] table of the decoder. *)
Definition backslash (e : ascii) : option ascii :=
  if Ascii.eqb e dquote then Some dquote
  else if Ascii.eqb e "\" then Some "\"%char
  else if Ascii.eqb e "/" then Some "/"%char
  else if Ascii.eqb e "b" then Some "008"%char
  else if Ascii.eqb e "f" then Some "012"%char
  else if Ascii.eqb e "n" then Some "010"%char
  else if Ascii.eqb e "r" then Some "013"%char
  else if Ascii.eqb e "t" then Some "009"%char
  else None.

Definition push (c : ascii) (r : option (string * string)) : option (string * string) :=
  match r with
  | Some (t, rest) => Some (String c t, rest)
  | None => None
  end.

(** [scanstring] in strict mode, from just after the opening quote: the
    string and what follows its closing quote. *)
Fixpoint scanstring (s : string) : option (string * string) :=
  match s with
  | EmptyString => None
  | String c r =>
      if Ascii.eqb c dquote then Some ("", r)
      else if Ascii.eqb c "\" then
        match r with
        | String e r1 =>
            if Ascii.eqb e "u" then
              match r1 with
              | String h1 (String h2 (String h3 (String h4 r2))) =>
                  match hex4 h1 h2 h3 h4 with
                  | Some n => if (n <? 256)%N then push (ascii_of_N n) (scanstring r2) else None
                  | None => None
                  end
              | _ => None
              end
            else
              match backslash e with
              | Some ch => push ch (scanstring r1)
              | None => None
              end
        | EmptyString => None
        end
      else if (N_of_ascii c <? 32)%N then None
      else push c (scanstring r)
  end.

Definition digit (c : ascii) : option (uint -> uint) :=
  match N_of_ascii c with
  | 48 => Some D0 | 49 => Some D1 | 50 => Some D2 | 51 => Some D3 | 52 => Some D4
  | 53 => Some D5 | 54 => Some D6 | 55 => Some D7 | 56 => Some D8 | 57 => Some D9
  | _ => None
  end%N.

(** The longest run of digits at the head of [s]. *)
Fixpoint scan_digits (s : string) : uint * string :=
  match s with
  | String c r =>
      match digit c with
      | Some d => let (u, r') := scan_digits r in (d u, r')
      | None => (Nil, s)
      end
  | EmptyString => (Nil, s)
  end.

(** Whether a fraction or an exponent may start here.  An integer followed
    by one of these characters is a float or a syntax error. *)
Definition float_tail (s : string) : bool :=
  match s with
  | String c _ => in_chars ".eE" c
  | EmptyString => false
  end.

(** The integer part of [NUMBER_RE]: an optional minus sign, then a single
    zero or a non-zero digit followed by digits. *)
Definition scan_int (s : string) : option (Z * string) :=
  let (neg, s1) := match s with
                   | String "-" r => (true, r)
                   | _ => (false, s)
                   end in
  let (u, r) := match s1 with
                | String "0" r => (D0 Nil, r)
                | _ => scan_digits s1
                end in
  match u with
  | Nil => None
  | _ => if float_tail r then None
         else Some (Z.of_int (if neg then Neg u else Pos u), r)
  end.

(** [dict(pairs)] *)
Definition dict_of_pairs (pairs : list (string * json)) : list (string * json) :=
  fold_left (fun d kv => dict_set d (fst kv) (snd kv)) pairs [].

(** [s] without its first character when that is [c]. *)
Definition expect (c : ascii) (s : string) : option string :=
  match s with
  | String x r => if Ascii.eqb x c then Some r else None
  | EmptyString => None
  end.

(** [scan_once], [JSONArray] and [JSONObject]; [n] bounds the number of
    nested calls. *)
Fixpoint scan_once (n : nat) (s : string) {struct n} : option (json * string) :=
  match n with
  | O => None
  | S n =>
      match s with
      | String c r =>
          if Ascii.eqb c dquote then
            match scanstring r with
            | Some (t, r') => Some (JStr t, r')
            | None => None
            end
          else if Ascii.eqb c "{" then
            match expect "}" (skip_ws r) with
            | Some r' => Some (JDict [], r')
            | None => scan_members n (skip_ws r) []
            end
          else if Ascii.eqb c "[" then
            match expect "]" (skip_ws r) with
            | Some r' => Some (JList [], r')
            | None => scan_elements n (skip_ws r) []
            end
          else if startswith s "null" then Some (JNull, slice_from 4 s)
          else if startswith s "true" then Some (JBool true, slice_from 4 s)
          else if startswith s "false" then Some (JBool false, slice_from 5 s)
          else
            match scan_int s with
            | Some (z, r') => Some (JInt z, r')
            | None => None
            end
      | EmptyString => None
      end
  end

with scan_elements (n : nat) (s : string) (acc : list json) {struct n}
  : option (json * string) :=
  match n with
  | O => None
  | S n =>
      match scan_once n s with
      | Some (v, r) =>
          match expect "]" (skip_ws r) with
          | Some r' => Some (JList (List.rev (v :: acc)), r')
          | None =>
              match expect "," (skip_ws r) with
              | Some r' => scan_elements n (skip_ws r') (v :: acc)
              | None => None
              end
          end
      | None => None
      end
  end

with scan_members (n : nat) (s : string) (acc : list (string * json)) {struct n}
  : option (json * string) :=
  match n with
  | O => None
  | S n =>
      match expect dquote s with
      | Some r =>
          match scanstring r with
          | Some (k, r1) =>
              match expect ":" (skip_ws r1) with
              | Some r2 =>
                  match scan_once n (skip_ws r2) with
                  | Some (v, r3) =>
                      match expect "}" (skip_ws r3) with
                      | Some r' =>
                          Some (JDict (dict_of_pairs (List.rev ((k, v) :: acc))), r')
                      | None =>
                          match expect "," (skip_ws r3) with
                          | Some r' => scan_members n (skip_ws r') ((k, v) :: acc)
                          | None => None
                          end
                      end
                  | None => None
                  end
              | None => None
              end
          | None => None
          end
      | None => None
      end
  end.

(** [json.loads] *)
Definition loads (s : string) : option json :=
  match scan_once (S (String.length s)) (skip_ws s) with
  | Some (v, r) => match skip_ws r with
                   | EmptyString => Some v
                   | _ => None
                   end
  | None => None
  end.

End Json.

(** ** The collection loop of [run_parser] (lines 212-230) *)

Module Collector.

Definition FIGHTS : string := "ipc-collect-fights".
Definition MASTER : string := "ipc-collect-master-info".

(** The two variables [fights_data] and [master_data]. *)
Record slots := Slots { fights_data : json; master_data : json }.

Definition initial : slots := Slots JNull JNull.

(** The body of the [try] for a message that is a dict, up to the test
    before [break]. *)
Definition record (msg : list (string * json)) (st : slots) : slots :=
  let channel := dict_get msg "channel" (JStr "") in
  let data := dict_get msg "data" (JDict []) in
  if eq_str channel FIGHTS then Slots data (master_data st)
  else if eq_str channel MASTER then Slots (fights_data st) data
  else st.

(** [fights_data and master_data], as a condition. *)
Definition complete (st : slots) : bool :=
  truthy (fights_data st) && truthy (master_data st).

(** One turn of the loop as the world presents it: the clock reading of
    [while time.time() < timeout] and, when the body runs, the result of
    [ipc_queue.get(timeout=0.1)] ([None] is [queue.Empty]). *)
Record tick := Tick { now : Z; got : option json }.

Inductive loop_exit :=
| Broke (st : slots)          (* left by [break] *)
| TimedOut (st : slots)       (* the [while] test failed *)
| Raised (e : exn)            (* an exception other than [queue.Empty] *)
| Spinning (st : slots).      (* the ticks ended with the loop still running *)

Definition no_get (v : json) : exn :=
  Exn "AttributeError" ("'" ++ type_name v ++ "' object has no attribute 'get'").

Fixpoint collect (timeout : Z) (ticks : list tick) (st : slots) : loop_exit :=
  match ticks with
  | [] => Spinning st
  | t :: rest =>
      if Z.ltb (now t) timeout then
        match got t with
        | None => collect timeout rest st
        | Some (JDict msg) =>
            let st' := record msg st in
            if complete st' then Broke st' else collect timeout rest st'
        | Some v => Raised (no_get v)
        end
      else TimedOut st
  end.

(** Lines 235-241. *)
Definition assemble (st : slots) : json :=
  if negb (truthy (fights_data st)) || negb (truthy (master_data st)) then
    JDict [("error", JStr "Parser did not return complete data");
           ("fights", fights_data st); ("master", master_data st)]
  else
    JDict [("fights", fights_data st); ("master", master_data st)].

End Collector.

(** ** The drain thread [read_thread] (lines 152-162) *)

Module Drain.

Import Json.

Definition SENTINEL : string := "__IPC__:".

(** What a statement does: it completes with a value or raises. *)
Inductive attempt (A : Type) : Type :=
| Done (a : A)
| Throws (e : exn).
Arguments Done {A} a.
Arguments Throws {A} e.

Definition json_loads (s : string) : attempt json :=
  match loads s with
  | Some v => Done v
  | None => Throws (Exn "JSONDecodeError" "")
  end.

(** [try: data = json.loads(line[8:].strip()); q.put(data)] with its
    [except: pass]: the queue afterwards. *)
Definition try_put (line : string) (q : list json) : attempt (list json) :=
  match json_loads (strip (slice_from 8 line)) with
  | Done data => Done (q ++ [data])
  | Throws _ => Done q
  end.

(** The body of the [while] for one non-empty line. *)
Definition handle (line : string) (q : list json) : attempt (list json) :=
  if startswith line SENTINEL then try_put line q else Done q.

(** The thread over the successive results of [p.stdout.readline()]; an
    empty result is the end of the stream. *)
Fixpoint read_thread (out : list string) (q : list json) : attempt (list json) :=
  match out with
  | [] => Done q
  | line :: rest =>
      if String.eqb line "" then Done q
      else match handle line q with
           | Done q' => read_thread rest q'
           | Throws e => Throws e
           end
  end.

(** The event a single line puts on the queue, if any. *)
Definition decode (line : string) : option json :=
  match handle line [] with
  | Done [data] => Some data
  | _ => None
  end.

End Drain.

(** ** [run_parser] (lines 121-241) *)

Module Run.

Import Json Collector.

(** *** Commands *)

(** The dict literals given to [json.dumps]: [message] and [id] first, then
    the fields of the kind. *)
Record command := Command {
  message : string;
  id : Z;
  fields : list (string * json) }.

Definition to_dict (c : command) : json :=
  JDict (("message", JStr (message c)) :: ("id", JInt (id c)) :: fields c).

(** [json.dumps(...) + "\n"] *)
Definition encode (c : command) : string :=
  (dumps (to_dict c) ++ String newline "")%string.

Definition region_map : list (Z * string) :=
  [(1, "NA"); (2, "EU"); (3, "JP"); (4, "CN"); (5, "KR")]%Z.

(** [region_map.get(k, default)] *)
Fixpoint map_get (d : list (Z * string)) (k : Z) (default : string) : string :=
  match d with
  | [] => default
  | (k', v) :: r => if Z.eqb k' k then v else map_get r k default
  end.

Definition region_str (region : Z) : string := map_get region_map region "NA".

Definition CRLF : string := String "010" (String "013" "").

Definition set_report_code (report_code : string) : command :=
  Command "set-report-code" 0 [("reportCode", JStr report_code)].

Definition parse_lines (lines : list string) (region : Z) : command :=
  Command "parse-lines" 1
    [("lines", JList (map (fun l => JStr (rstrip (in_chars CRLF) l)) lines));
     ("isLive", JBool false);
     ("region", JStr (region_str region));
     ("selectedFights", JList [])].

Definition collect_fights : command :=
  Command "collect-fights" 2 [("isLive", JBool false); ("forReport", JBool false)].

Definition collect_master_info (report_code : string) : command :=
  Command "collect-master-info" 3 [("reportCode", JStr report_code)].

(** *** The world and what a run does to it *)

Record world := World {
  download_parser_if_needed : bool;
  script_exists : bool;               (* os.path.exists(OUTPUT_SCRIPT) *)
  readlines : string -> string + list string;  (* [inl e]: reading raised [e] *)
  popen : option string;              (* [Some e]: subprocess.Popen raised [e] *)
  stdin_fault : nat -> option exn;    (* what the k-th write and flush raise *)
  clock0 : Z;                         (* time.time() on line 215 *)
  ticks : list tick }.

Inductive action :=
| Spawn                  (* the worker process exists *)
| StartThread
| Write (line : string)  (* a line written to the worker's stdin and flushed *)
| Sleep (ms : Z)
| Terminate.             (* proc.terminate() *)

Inductive result :=
| Return (o : json)
| Raise (e : exn)
| Running.               (* still in the loop when the ticks end *)

Inductive reply (A : Type) : Type :=
| Ok (a : A)
| Exc (e : exn)
| Stuck.
Arguments Ok {A} a.
Arguments Exc {A} e.
Arguments Stuck {A}.

(** Statements after the spawn: they extend the trace of actions, and
    complete, raise or do not end. *)
Definition M (A : Type) : Type := list action -> reply A * list action.

Definition ret {A} (a : A) : M A := fun tr => (Ok a, tr).

Definition bind {A B} (m : M A) (k : A -> M B) : M B :=
  fun tr =>
    match m tr with
    | (Ok a, tr') => k a tr'
    | (Exc e, tr') => (Exc e, tr')
    | (Stuck, tr') => (Stuck, tr')
    end.

Definition raise {A} (e : exn) : M A := fun tr => (Exc e, tr).

Definition emit (a : action) : M unit := fun tr => (Ok tt, tr ++ [a]).

Notation "x <- m ;; k" := (bind m (fun x => k))
  (at level 61, m at next level, right associativity).
Notation "m ;; k" := (bind m (fun _ => k))
  (at level 61, right associativity).

(** [proc.stdin.write(json.dumps(c) + "\n"); proc.stdin.flush()], the k-th
    of the run. *)
Definition send (w : world) (k : nat) (c : command) : M unit :=
  match stdin_fault w k with
  | Some e => raise e
  | None => emit (Write (encode c))
  end.

Definition sleep (ms : Z) : M unit := emit (Sleep ms).

(** [timeout = time.time() + 10] *)
Definition deadline (w : world) : Z := (clock0 w + 10 * 1000)%Z.

(** Lines 215-230. *)
Definition collecting (w : world) : M slots :=
  fun tr =>
    match collect (deadline w) (ticks w) initial with
    | Broke st => (Ok st, tr)
    | TimedOut st => (Ok st, tr)
    | Raised e => (Exc e, tr)
    | Spinning _ => (Stuck, tr)
    end.

(** Lines 150-241, once [proc] exists. *)
Definition session (w : world) (lines : list string) (report_code : string)
    (region : Z) : M json :=
  emit StartThread ;;
  send w 0 (set_report_code report_code) ;;
  sleep 100 ;;
  send w 1 (parse_lines lines region) ;;
  sleep 500 ;;
  send w 2 collect_fights ;;
  sleep 500 ;;
  send w 3 (collect_master_info report_code) ;;
  sleep 500 ;;
  st <- collecting w ;;
  emit Terminate ;;
  ret (assemble st).

Definition error_only (text : string) : json := JDict [("error", JStr text)].

Definition run_parser (w : world) (log_file report_code : string) (region : Z)
  : result * list action :=
  if negb (download_parser_if_needed w) then
    (Return (error_only "Parser download failed"), [])
  else if negb (script_exists w) then
    (Return (error_only "Parser script not found"), [])
  else
    match readlines w log_file with
    | inl e => (Return (error_only ("Failed to read log file: " ++ e)), [])
    | inr lines =>
        match popen w with
        | Some e => (Return (error_only ("Failed to start Node.js: " ++ e)), [])
        | None =>
            match session w lines report_code region [Spawn] with
            | (Ok o, tr) => (Return o, tr)
            | (Exc e, tr) => (Raise e, tr)
            | (Stuck, tr) => (Running, tr)
            end
        end
    end.

End Run.

(** ** Vocabulary of the properties *)

Module Spec.

Import Json Collector Drain Run.

(** An event as the collector reads it: a mapping. *)
Definition event := list (string * json).

Definition on_channel (ch : string) (m : event) : bool :=
  eq_str (dict_get m "channel" (JStr "")) ch.

Definition payload (m : event) : json := dict_get m "data" (JDict []).

Definition event_of (ch : string) (data : json) : json :=
  JDict [("channel", JStr ch); ("data", data)].

(** The mappings among what the turns of the loop took from the queue. *)
Definition events (ts : list tick) : list event :=
  flat_map (fun t => match got t with
                     | Some (JDict m) => [m]
                     | _ => []
                     end) ts.

(** Every turn either finds the queue empty or takes a mapping from it. *)
Definition mappings (ts : list tick) : bool :=
  forallb (fun t => match got t with
                    | Some (JDict _) | None => true
                    | Some _ => false
                    end) ts.

(** Every turn reads the clock before [timeout]. *)
Definition before (timeout : Z) (ts : list tick) : bool :=
  forallb (fun t => Z.ltb (now t) timeout) ts.

(** The variables after the events [ms], one after the other. *)
Definition recorded (ms : list event) (st : slots) : slots :=
  fold_left (fun st m => record m st) ms st.

(** The variables after each of the events [ms]. *)
Fixpoint states (ms : list event) (st : slots) : list slots :=
  match ms with
  | [] => []
  | m :: r => record m st :: states r (record m st)
  end.

(** The payload of the last event of [ms] on channel [ch]; [None] when there
    is none. *)
Definition latest (ch : string) (ms : list event) : json :=
  match List.rev (filter (on_channel ch) ms) with
  | [] => JNull
  | m :: _ => payload m
  end.

(** An event on channel [ch] is among those taken at the turns [ts]. *)
Definition received (ch : string) (ts : list tick) : bool :=
  existsb (on_channel ch) (events ts).

(** The Outcome mappings. *)
Definition success (st : slots) : json :=
  JDict [("fights", fights_data st); ("master", master_data st)].

Definition failure (st : slots) : json :=
  JDict [("error", JStr "Parser did not return complete data");
         ("fights", fights_data st); ("master", master_data st)].

Definition is_success (o : json) : bool :=
  match o with
  | JDict d => has_key d "fights" && has_key d "master" && negb (has_key d "error")
  | _ => false
  end.

Definition has_error (o : json) : bool :=
  match o with
  | JDict d => has_key d "error"
  | _ => false
  end.

(** Everything up to [Popen] went well: the lines read from the log file. *)
Definition launch (w : world) (log_file : string) : option (list string) :=
  if download_parser_if_needed w && script_exists w then
    match readlines w log_file, popen w with
    | inr lines, None => Some lines
    | _, _ => None
    end
  else None.

(** None of the four writes raises. *)
Definition writes_ok (w : world) : bool :=
  forallb (fun k => match stdin_fault w k with
                    | None => true
                    | Some _ => false
                    end) (seq 0 4).

(** The k-th command of a run. *)
Definition command_at (lines : list string) (report_code : string) (region : Z)
    (k : nat) : command :=
  match k with
  | 0 => set_report_code report_code
  | 1 => parse_lines lines region
  | 2 => collect_fights
  | _ => collect_master_info report_code
  end.

(** The lines written to the worker, in order. *)
Definition written (tr : list action) : list string :=
  flat_map (fun a => match a with
                     | Write l => [l]
                     | _ => []
                     end) tr.

(** The actions of a run whose four writes succeed, up to the loop. *)
Definition script (lines : list string) (report_code : string) (region : Z)
  : list action :=
  [Spawn; StartThread;
   Write (encode (set_report_code report_code)); Sleep 100;
   Write (encode (parse_lines lines region)); Sleep 500;
   Write (encode collect_fights); Sleep 500;
   Write (encode (collect_master_info report_code)); Sleep 500].

(** The region string the protocol gives to each region code. *)
Definition region_name (region : Z) : string :=
  match region with
  | 1 => "NA"
  | 2 => "EU"
  | 3 => "JP"
  | 4 => "CN"
  | 5 => "KR"
  | _ => "NA"
  end%Z.

(** Keys are distinct in every dict of the value: it is a Python object. *)
Fixpoint distinct_keys (ks : list string) : bool :=
  match ks with
  | [] => true
  | k :: r => negb (existsb (String.eqb k) r) && distinct_keys r
  end.

Fixpoint well_formed (v : json) : bool :=
  match v with
  | JList l => forallb well_formed l
  | JDict kvs =>
      distinct_keys (map fst kvs) && forallb (fun kv => well_formed (snd kv)) kvs
  | _ => true
  end.

(** The number of nested calls that scanning the text of [v] takes. *)
Fixpoint size (v : json) : nat :=
  match v with
  | JList l => S (fold_right (fun x n => S (size x + n)) 0 l)
  | JDict kvs => S (fold_right (fun kv n => S (size (snd kv) + n)) 0 kvs)
  | _ => 1
  end.

(** What may follow the text of a value: nothing that would continue a
    number. *)
Definition tail_ok (rest : string) : bool :=
  match rest with
  | EmptyString => true
  | String c _ => match Json.digit c with
                  | Some _ => false
                  | None => negb (in_chars ".eE" c)
                  end
  end.

(** The characters a serialised value can start with. *)
Definition value_head (c : ascii) : bool :=
  in_chars "ntf-0123456789[{" c || Ascii.eqb c dquote.

Definition head_ok (s : string) : bool :=
  match s with
  | String c _ => value_head c
  | EmptyString => false
  end.

(** The text of one member of a dict. *)
Definition dump_member (kv : string * json) : string :=
  (Json.dump_str (fst kv) ++ ": " ++ Json.dumps (snd kv))%string.

(** Scanning the text of [v], whatever follows it, gives [v] back. *)
Definition scans (v : json) : Prop :=
  well_formed v = true ->
  forall n rest, size v <= n -> tail_ok rest = true ->
    Json.scan_once n (Json.dumps v ++ rest) = Some (v, rest).

(** A world in which everything up to the spawn goes well. *)
Definition calm (faults : nat -> option exn) (ts : list tick) : world :=
  World true true (fun _ => inr ["line one"; "line two"]) None faults 0 ts.

Definition no_fault : nat -> option exn := fun _ => None.

Definition broken_pipe : exn := Exn "BrokenPipeError" "[Errno 32] Broken pipe".

Definition fault_at (k : nat) : nat -> option exn :=
  fun i => if Nat.eqb i k then Some broken_pipe else None.

End Spec.

(** ** [download_parser_if_needed] (lines 27-118) *)

Module Provider.

Import Json.

Definition FFLOGS_URL : string := "https://www.fflogs.com".
Definition USER_AGENT : string := "FFLogsUploader/8.17.115".

(** 86400 seconds, in milliseconds. *)
Definition DAY : Z := 86400 * 1000.

(** The text between the triple quotes of lines 65-107. *)
Definition runner_code : string := "
const fs = require('fs');
const readline = require('readline');

// Mock browser environment
const window = {
    location: { search: '?id=1&metersEnabled=false&liveFightDataEnabled=false' },
    addEventListener: (type, listener) => { if (type === 'message') global.messageListener = listener; }
};
const document = {
    createElement: () => ({ style: {}, appendChild: () => {} }),
    getElementsByTagName: () => [{ appendChild: () => {} }],
    body: { appendChild: () => {} },
    readyState: 'complete',
    addEventListener: () => {}
};
global.window = window;
global.document = document;
global.self = window;
global.navigator = { userAgent: 'FFLogsPlugin/1.0' };

// IPC output
window.sendToHost = (channel, id, event, data) => {
    console.log('__IPC__:' + JSON.stringify({ channel, id, data }));
};

// Readline for input
const rl = readline.createInterface({ input: process.stdin, output: process.stdout, terminal: false });
rl.on('line', (line) => {
    if (!line.trim()) return;
    try {
        const msg = JSON.parse(line);
        if (global.messageListener) {
            global.messageListener({
                data: msg,
                source: { postMessage: (r) => console.log('__IPC__:' + JSON.stringify(r)) },
                origin: 'emulator'
            });
        }
    } catch (e) {}
});

".

(** What the file system and the network answer. *)
Record env := Env {
  bundle_exists : bool;                 (* os.path.exists(OUTPUT_SCRIPT) *)
  bundle_mtime : Z;                     (* os.path.getmtime(OUTPUT_SCRIPT) *)
  clock_age : Z;                        (* time.time() on line 31 *)
  clock_ts : Z;                         (* time.time() on line 39 *)
  urlopen : string -> string + string;  (* [inl e]: the request, the read or the decoding raised [e] *)
  open_bundle : option string;          (* [Some e]: open(OUTPUT_SCRIPT, 'w') raised [e] *)
  write_bundle : string -> option string  (* [Some e]: the write or the close raised [e] *) }.

Inductive effect :=
| Stdout (line : string)                           (* print(line) *)
| Request (url : string) (agent : option string)   (* urlopen, with its User-Agent header *)
| Truncate                                         (* OUTPUT_SCRIPT opened for writing: emptied *)
| WriteFile (content : string).                    (* [content] written to it, and it is closed *)

(** The f-string of line 40. *)
Definition page_url (ts : Z) : string :=
  (FFLOGS_URL ++ "/desktop-client/parser?id=1&ts=" ++ dump_int ts
     ++ "&metersEnabled=false&liveFightDataEnabled=false")%string.

(** The text before the first occurrence of [needle] in [s] and the text
    after it. *)
Fixpoint find (needle s : string) : option (string * string) :=
  if startswith s needle then Some ("", slice_from (String.length needle) s)
  else match s with
       | String c r =>
           match find needle r with
           | Some (a, b) => Some (String c a, b)
           | None => None
           end
       | EmptyString => None
       end.

(** The characters before the first double quote of [s]; [None] when [s]
    has none. *)
Fixpoint until_quote (s : string) : option string :=
  match s with
  | EmptyString => None
  | String c r =>
      if Ascii.eqb c dquote then Some ""
      else match until_quote r with
           | Some a => Some (String c a)
           | None => None
           end
  end.

(** [needle] occurs in [s] with at least one character after it. *)
Fixpoint occurs_before_end (needle s : string) : bool :=
  (startswith s needle && Nat.ltb (String.length needle) (String.length s))
  || match s with
     | String _ r => occurs_before_end needle r
     | EmptyString => false
     end.

(** [needle] occurs in [s] with at least one character on either side. *)
Definition occurs_inside (needle s : string) : bool :=
  match s with
  | String _ r => occurs_before_end needle r
  | EmptyString => false
  end.

Definition SRC : string := ("src=" ++ String dquote "")%string.

(** Group 1 of the first match of the pattern of line 50: the attribute value
    of the leftmost [src] attribute whose value, free of double quotes, has
    [parser-ff] inside it. *)
Fixpoint search_parser_src (html : string) : option string :=
  match html with
  | EmptyString => None
  | String _ r =>
      if startswith html SRC then
        match until_quote (slice_from 5 html) with
        | Some value =>
            if occurs_inside "parser-ff" value then Some value
            else search_parser_src r
        | None => search_parser_src r
        end
      else search_parser_src r
  end.

Definition SCRIPT_OPEN : string :=
  ("<script type=" ++ String dquote "text/javascript" ++ String dquote ">")%string.
Definition SCRIPT_CLOSE : string := "</script>".
Definition GLUE_MARK : string := "ipcCollectFights".

(** Group 1 of the first match of the pattern of line 61: from the first
    opening tag, through the first [ipcCollectFights] after it, up to the
    first closing tag after that. *)
Definition search_glue (html : string) : option string :=
  match find SCRIPT_OPEN html with
  | Some (_, r1) =>
      match find GLUE_MARK r1 with
      | Some (a, r2) =>
          match find SCRIPT_CLOSE r2 with
          | Some (b, _) => Some (a ++ GLUE_MARK ++ b)%string
          | None => None
          end
      | None => None
      end
  | None => None
  end.

Definition status_line : string :=
  dumps (JDict [("status", JStr "downloading_parser")]).

(** The line printed by the [except] clause. *)
Definition error_line (e : string) : string :=
  dumps (JDict [("error", JStr ("Failed to download parser: " ++ e))]).

(** Line 110. *)
Definition bundle (parser_code glue_code : string) : string :=
  (runner_code ++ String newline (String newline "") ++ parser_code
     ++ String newline (String newline "") ++ glue_code)%string.

(** What the call returns, and what it does, in order. *)
Definition download_parser_if_needed (e : env) : bool * list effect :=
  if bundle_exists e && Z.ltb (clock_age e - bundle_mtime e) DAY then (true, [])
  else
    let page := page_url (clock_ts e) in
    let begun := [Stdout status_line; Request page (Some USER_AGENT)] in
    match urlopen e page with
    | inl err => (false, begun ++ [Stdout (error_line err)])
    | inr html =>
        match search_parser_src html with
        | None => (false, begun)
        | Some parser_url =>
            match urlopen e parser_url with
            | inl err =>
                (false, begun ++ [Request parser_url None; Stdout (error_line err)])
            | inr parser_code =>
                let glue_code := match search_glue html with
                                 | Some g => g
                                 | None => ""
                                 end in
                let full_bundle := bundle parser_code glue_code in
                match open_bundle e with
                | Some err =>
                    (false, begun ++ [Request parser_url None; Stdout (error_line err)])
                | None =>
                    match write_bundle e full_bundle with
                    | Some err =>
                        (false, begun ++ [Request parser_url None; Truncate;
                                          Stdout (error_line err)])
                    | None =>
                        (true, begun ++ [Request parser_url None; Truncate;
                                         WriteFile full_bundle])
                    end
                end
            end
        end
    end.

End Provider.

(** ** [main] (lines 244-254) *)

Module Entry.

Import Json Drain Run.

(** The whole process: what the provider sees, and the rest of the world of
    [run_parser], whose first field is what the provider returns. *)
Record host := Host { provider : Provider.env; rest : world }.

Definition world_of (h : host) : world :=
  World (fst (Provider.download_parser_if_needed (provider h)))
        (script_exists (rest h)) (readlines (rest h)) (popen (rest h))
        (stdin_fault (rest h)) (clock0 (rest h)) (ticks (rest h)).

(** The lines printed while [run_parser] runs. *)
Definition provider_output (h : host) : list string :=
  flat_map (fun x => match x with
                     | Provider.Stdout l => [l]
                     | _ => []
                     end)
           (snd (Provider.download_parser_if_needed (provider h))).

Inductive ending :=
| Exit (code : Z)        (* the interpreter exits with this status *)
| Uncaught (e : exn)     (* an exception leaves [main] *)
| Unfinished.            (* still in the loop when the ticks end *)

Definition USAGE : string :=
  "Usage: python fflogs_parser.py <log_file> <report_code> <region>".

Section main.

(** [int(s)] for a string; it raises [ValueError] on what is not an integer
    literal. *)
Variable int : string -> attempt Z.

(** The lines printed to stdout and how the process ends. *)
Definition main (h : host) (argv : list string) : list string * ending :=
  if Nat.ltb (List.length argv) 4 then
    ([dumps (JDict [("error", JStr USAGE)])], Exit 1)
  else
    let log_file := nth 1 argv "" in
    let report_code := nth 2 argv "" in
    match int (nth 3 argv "") with
    | Throws e => ([], Uncaught e)
    | Done region =>
        match run_parser (world_of h) log_file report_code region with
        | (Return result, _) => (provider_output h ++ [dumps result], Exit 0)
        | (Raise e, _) => (provider_output h, Uncaught e)
        | (Running, _) => (provider_output h, Unfinished)
        end
    end.

End main.

End Entry.

(** ** Vocabulary of the further properties *)

Module Cover.

Import Json Collector Drain Run Spec.

(** The characters from the space to the tilde. *)
Definition printable (c : ascii) : bool :=
  let n := N_of_ascii c in ((32 <=? n) && (n <=? 126))%N.

Fixpoint all_chars (p : ascii -> bool) (s : string) : bool :=
  match s with
  | EmptyString => true
  | String c r => p c && all_chars p r
  end.

Fixpoint last_char (s : string) : option ascii :=
  match s with
  | EmptyString => None
  | String c EmptyString => Some c
  | String _ r => last_char r
  end.

(** A turn that can change the variables or end the loop: it takes from
    the queue something other than a mapping on a third channel. *)
Definition relevant (t : tick) : bool :=
  match got t with
  | None => false
  | Some (JDict m) => on_channel FIGHTS m || on_channel MASTER m
  | Some _ => true
  end.

(** The same world with other turns of the loop. *)
Definition with_ticks (w : world) (ts : list tick) : world :=
  World (download_parser_if_needed w) (script_exists w) (readlines w) (popen w)
        (stdin_fault w) (clock0 w) ts.

(** No line is empty: the stream has not ended. *)
Definition no_empty (lines : list string) : bool :=
  forallb (fun l => negb (String.eqb l "")) lines.

(** For each line that starts with the sentinel, in the order of the lines,
    what [json.loads] makes of the text behind the sentinel, when it makes
    something of it. *)
Definition carried (lines : list string) : list json :=
  flat_map (fun l => if startswith l SENTINEL then
                       match loads (strip (slice_from 8 l)) with
                       | Some data => [data]
                       | None => []
                       end
                     else []) lines.

(** The four commands of a run. *)
Definition commands (lines : list string) (report_code : string) (region : Z)
  : list command :=
  [set_report_code report_code; parse_lines lines region;
   collect_fights; collect_master_info report_code].

(** The bundle is there and less than a day old. *)
Definition fresh (e : Provider.env) : bool :=
  Provider.bundle_exists e
  && Z.ltb (Provider.clock_age e - Provider.bundle_mtime e) Provider.DAY.

Definition no_quote (s : string) : bool :=
  all_chars (fun c => negb (Ascii.eqb c dquote)) s.

(** Both variables hold Python objects. *)
Definition sound (st : slots) : bool :=
  well_formed (fights_data st) && well_formed (master_data st).

(** What the turns took from the queue are Python objects. *)
Definition well_formed_ticks (ts : list tick) : bool :=
  forallb (fun t => match got t with
                    | Some v => well_formed v
                    | None => true
                    end) ts.

End Cover.

(** * Properties *)

(** ** The codec: [json.dumps] and [json.loads] *)

Module JsonFacts.

Import Decimal Json Spec.
Local Open Scope string_scope.

Lemma append_assoc (a b c : string) : ((a ++ b) ++ c = a ++ (b ++ c))%string.
Proof. induction a as [|x a IH]; simpl; [reflexivity|now rewrite IH]. Qed.

Lemma append_nil_r (a : string) : (a ++ "")%string = a.
Proof. induction a as [|x a IH]; simpl; [reflexivity|now rewrite IH]. Qed.

Lemma scan_digits_uint (u : uint) (rest : string) :
  tail_ok rest = true ->
  scan_digits (NilEmpty.string_of_uint u ++ rest) = (u, rest).
Proof.
  intros T. induction u; simpl; try (rewrite IHu; reflexivity).
  destruct rest as [|c r]; [reflexivity|].
  simpl in T. simpl. now destruct (digit c).
Qed.

Lemma to_uint_head (p : positive) :
  exists c r, NilEmpty.string_of_uint (Pos.to_uint p) = String c r /\
              In c ["1"; "2"; "3"; "4"; "5"; "6"; "7"; "8"; "9"]%char.
Proof.
  pose proof (DecimalPos.Unsigned.to_of (Pos.to_uint p)) as H.
  rewrite DecimalPos.Unsigned.of_to in H. simpl in H.
  pose proof (DecimalPos.Unsigned.to_uint_nonzero p) as NZ.
  pose proof (DecimalPos.Unsigned.to_uint_nonnil p) as NN.
  destruct (Pos.to_uint p) as [|u|u|u|u|u|u|u|u|u|u] eqn:E;
    try (simpl; do 2 eexists; split; [reflexivity|simpl; tauto]).
  - congruence.
  - exfalso. rewrite unorm_D0 in H.
    destruct (uint_eq_dec (nzhead u) Nil) as [Z|Z].
    + apply unorm_0 in Z. rewrite Z in H. now apply NZ.
    + rewrite (unorm_nzhead _ Z) in H. symmetry in H. now apply nzhead_nonzero in H.
Qed.

Lemma scan_int_digits (c : ascii) (r : string) (u : uint) (rest : string) :
  In c ["1"; "2"; "3"; "4"; "5"; "6"; "7"; "8"; "9"]%char ->
  scan_digits (String c r) = (u, rest) ->
  u <> Nil ->
  float_tail rest = false ->
  scan_int (String c r) = Some (Z.of_int (Pos u), rest) /\
  scan_int (String "-" (String c r)) = Some (Z.of_int (Neg u), rest).
Proof.
  intros C S NN F. simpl in C.
  repeat (destruct C as [C|C];
          [subst c; unfold scan_int; cbn -[scan_digits float_tail Z.of_int];
           rewrite S; destruct u; [congruence|now rewrite F ..]|]).
  destruct C.
Qed.

Lemma scan_int_dump (z : Z) (rest : string) :
  tail_ok rest = true ->
  scan_int (dump_int z ++ rest) = Some (z, rest).
Proof.
  intros T.
  assert (F : float_tail rest = false).
  { destruct rest as [|c r]; [reflexivity|]. simpl in *.
    destruct (digit c); [discriminate|]. now apply negb_true_iff in T. }
  rewrite <- (DecimalZ.of_to z) at 2.
  unfold dump_int. destruct z as [|p|p]; simpl Z.to_int; cbv iota.
  - unfold scan_int. cbn -[float_tail]. now rewrite F.
  - destruct (to_uint_head p) as (c & r & E & C).
    pose proof (scan_digits_uint (Pos.to_uint p) rest T) as S.
    rewrite E in *.
    apply (scan_int_digits c (r ++ rest) _ rest C S
             (DecimalPos.Unsigned.to_uint_nonnil p) F).
  - destruct (to_uint_head p) as (c & r & E & C).
    pose proof (scan_digits_uint (Pos.to_uint p) rest T) as S.
    rewrite E in *.
    apply (scan_int_digits c (r ++ rest) _ rest C S
             (DecimalPos.Unsigned.to_uint_nonnil p) F).
Qed.

Lemma scanstring_escape_char (c : ascii) (r : string) :
  scanstring (escape_char c ++ r) = push c (scanstring r).
Proof.
  destruct c as [[] [] [] [] [] [] [] []]; reflexivity.
Qed.

Lemma scanstring_escape (s rest : string) :
  scanstring (escape s ++ String dquote rest) = Some (s, rest).
Proof.
  induction s as [|c s IH]; [reflexivity|].
  simpl escape. rewrite append_assoc, scanstring_escape_char, IH. reflexivity.
Qed.

Lemma dump_str_app (s rest : string) :
  (dump_str s ++ rest)%string = String dquote (escape s ++ String dquote rest).
Proof. unfold dump_str. simpl. now rewrite append_assoc. Qed.

Lemma value_head_facts (c : ascii) :
  value_head c = true ->
  is_ws c = false /\ Ascii.eqb c "]" = false /\ Ascii.eqb c "}" = false.
Proof.
  destruct c as [[] [] [] [] [] [] [] []]; vm_compute; intros H;
    try discriminate; now repeat split.
Qed.

Lemma skip_ws_head (s : string) : head_ok s = true -> skip_ws s = s.
Proof.
  destruct s as [|c r]; [reflexivity|]. simpl. intros H.
  apply value_head_facts in H as (W & _). unfold skip_ws. simpl. now rewrite W.
Qed.

Lemma expect_head (s : string) :
  head_ok s = true -> expect "]" s = None /\ expect "}" s = None.
Proof.
  destruct s as [|c r]; [discriminate|]. simpl. intros H.
  apply value_head_facts in H as (_ & A & B). now rewrite A, B.
Qed.

Lemma head_ok_app (s t : string) : head_ok s = true -> head_ok (s ++ t) = true.
Proof. destruct s; [discriminate|]. now simpl. Qed.

Lemma dump_int_head (z : Z) : head_ok (dump_int z) = true.
Proof.
  unfold dump_int. destruct z as [|p|p]; simpl Z.to_int; cbv iota; try reflexivity.
  destruct (to_uint_head p) as (c & r & E & C). rewrite E. simpl in C |- *.
  repeat (destruct C as [C|C]; [now subst c|]). destruct C.
Qed.

Lemma dumps_head (v : json) : head_ok (dumps v) = true.
Proof.
  destruct v as [|[]|z|s|l|kvs]; try reflexivity.
  apply dump_int_head.
Qed.

Lemma join_head (l : list json) :
  l <> [] -> head_ok (join ", " (map dumps l)) = true.
Proof.
  destruct l as [|v [|v2 l]]; [congruence| |]; intros _; simpl.
  - apply dumps_head.
  - apply head_ok_app, dumps_head.
Qed.

Lemma scan_once_number (n : nat) (s : string) :
  (exists c r, s = String c r /\
     In c ["-"; "0"; "1"; "2"; "3"; "4"; "5"; "6"; "7"; "8"; "9"]%char) ->
  scan_once (S n) s = match scan_int s with
                      | Some (z, r') => Some (JInt z, r')
                      | None => None
                      end.
Proof.
  intros (c & r & E & C). subst s. simpl in C.
  repeat (destruct C as [C|C]; [now subst c|]). destruct C.
Qed.

Lemma dump_int_first (z : Z) :
  exists c r, dump_int z = String c r /\
     In c ["-"; "0"; "1"; "2"; "3"; "4"; "5"; "6"; "7"; "8"; "9"]%char.
Proof.
  unfold dump_int. destruct z as [|p|p]; simpl Z.to_int; cbv iota.
  - do 2 eexists. split; [reflexivity|]. simpl. tauto.
  - destruct (to_uint_head p) as (c & r & E & C). rewrite E.
    exists c, r. split; [reflexivity|]. simpl in *. tauto.
  - do 2 eexists. split; [reflexivity|]. simpl. tauto.
Qed.

Lemma scan_once_int (n : nat) (z : Z) (rest : string) :
  tail_ok rest = true ->
  scan_once (S n) (dump_int z ++ rest) = Some (JInt z, rest).
Proof.
  intros T. rewrite scan_once_number.
  - now rewrite (scan_int_dump z rest T).
  - destruct (dump_int_first z) as (c & r & E & C). rewrite E.
    now exists c, (r ++ rest)%string.
Qed.

Lemma scan_elements_eq (n : nat) (s : string) (acc : list json) :
  scan_elements (S n) s acc =
    match scan_once n s with
    | Some (v, r) =>
        match expect "]" (skip_ws r) with
        | Some r' => Some (JList (List.rev (v :: acc)), r')
        | None =>
            match expect "," (skip_ws r) with
            | Some r' => scan_elements n (skip_ws r') (v :: acc)
            | None => None
            end
        end
    | None => None
    end.
Proof. reflexivity. Qed.

Lemma scan_members_eq (n : nat) (s : string) (acc : list (string * json)) :
  scan_members (S n) s acc =
    match expect dquote s with
    | Some r =>
        match scanstring r with
        | Some (k, r1) =>
            match expect ":" (skip_ws r1) with
            | Some r2 =>
                match scan_once n (skip_ws r2) with
                | Some (v, r3) =>
                    match expect "}" (skip_ws r3) with
                    | Some r' =>
                        Some (JDict (dict_of_pairs (List.rev ((k, v) :: acc))), r')
                    | None =>
                        match expect "," (skip_ws r3) with
                        | Some r' => scan_members n (skip_ws r') ((k, v) :: acc)
                        | None => None
                        end
                    end
                | None => None
                end
            | None => None
            end
        | None => None
        end
    | None => None
    end.
Proof. reflexivity. Qed.

Lemma skip_ws_space (s : string) : skip_ws (String " " s) = skip_ws s.
Proof. reflexivity. Qed.

Lemma skip_ws_punct (c : ascii) (s : string) :
  In c [","; ":"; "]"; "}"]%char -> skip_ws (String c s) = String c s.
Proof. simpl. intros [H|[H|[H|[H|H]]]]; try (now subst c). destruct H. Qed.

Lemma expect_same (c : ascii) (s : string) : expect c (String c s) = Some s.
Proof. simpl. now rewrite Ascii.eqb_refl. Qed.

Lemma expect_comma (s : string) :
  expect "]" (String "," s) = None /\ expect "}" (String "," s) = None.
Proof. now split. Qed.

Lemma scan_elements_dumps (l : list json) :
  Forall scans l ->
  forallb well_formed l = true ->
  l <> [] ->
  forall n acc rest,
    fold_right (fun x k => S (size x + k)) 0 l <= n ->
    scan_elements n (join ", " (map dumps l) ++ String "]" rest) acc
      = Some (JList (List.rev acc ++ l), rest).
Proof.
  induction l as [|v l IH]; intros HF HW NE n acc rest Hn; [congruence|].
  inversion HF as [|? ? Hv Hl]; subst.
  simpl in HW. apply andb_prop in HW as [Wv Wl].
  simpl in Hn. destruct n as [|n]; [lia|].
  rewrite scan_elements_eq.
  destruct l as [|v2 l].
  - simpl join. rewrite (Hv Wv n (String "]" rest)) by (simpl; trivial; lia).
    rewrite skip_ws_punct by (simpl; tauto). rewrite expect_same.
    simpl. reflexivity.
  - change (join ", " (map dumps (v :: v2 :: l)))
      with (dumps v ++ ", " ++ join ", " (map dumps (v2 :: l)))%string.
    rewrite !append_assoc.
    rewrite (Hv Wv n _) by (simpl; trivial; lia).
    cbn [append].
    rewrite skip_ws_punct by (simpl; tauto).
    rewrite (proj1 (expect_comma _)), expect_same, skip_ws_space.
    rewrite skip_ws_head by (apply head_ok_app, join_head; discriminate).
    rewrite (IH Hl Wl ltac:(discriminate) n (v :: acc) rest) by (simpl in *; lia).
    simpl. now rewrite <- List.app_assoc.
Qed.

Lemma members_head (kvs : list (string * json)) (t : string) :
  kvs <> [] -> head_ok (join ", " (map dump_member kvs) ++ t) = true.
Proof. destruct kvs as [|kv [|kv2 kvs]]; [congruence| |]; intros _; reflexivity. Qed.

Lemma scan_members_dumps (kvs : list (string * json)) :
  Forall (fun kv => scans (snd kv)) kvs ->
  forallb (fun kv => well_formed (snd kv)) kvs = true ->
  kvs <> [] ->
  forall n acc rest,
    fold_right (fun kv k => S (size (snd kv) + k)) 0 kvs <= n ->
    scan_members n (join ", " (map dump_member kvs) ++ String "}" rest) acc
      = Some (JDict (dict_of_pairs (List.rev acc ++ kvs)), rest).
Proof.
  induction kvs as [|[k v] kvs IH]; intros HF HW NE n acc rest Hn; [congruence|].
  inversion HF as [|? ? Hv Hl]; subst. simpl in Hv.
  simpl in HW. apply andb_prop in HW as [Wv Wl].
  simpl in Hn. destruct n as [|n]; [lia|].
  rewrite scan_members_eq.
  destruct kvs as [|kv2 kvs].
  - simpl join. unfold dump_member at 1. cbn [fst snd].
    rewrite !append_assoc, dump_str_app, expect_same, scanstring_escape.
    cbn [append].
    rewrite skip_ws_punct by (simpl; tauto). rewrite expect_same, skip_ws_space.
    rewrite skip_ws_head by (apply head_ok_app, dumps_head).
    rewrite (Hv Wv n (String "}" rest)) by (simpl; trivial; lia).
    rewrite skip_ws_punct by (simpl; tauto). rewrite expect_same.
    simpl. reflexivity.
  - change (join ", " (map dump_member ((k, v) :: kv2 :: kvs)))
      with (dump_member (k, v) ++ ", " ++ join ", " (map dump_member (kv2 :: kvs)))%string.
    unfold dump_member at 1. cbn [fst snd].
    rewrite !append_assoc, dump_str_app, expect_same, scanstring_escape.
    cbn [append].
    rewrite skip_ws_punct by (simpl; tauto). rewrite expect_same, skip_ws_space.
    rewrite skip_ws_head by (apply head_ok_app, dumps_head).
    rewrite (Hv Wv n _) by (simpl; trivial; lia).
    rewrite skip_ws_punct by (simpl; tauto).
    rewrite (proj2 (expect_comma _)), expect_same, skip_ws_space.
    rewrite skip_ws_head by (apply members_head; discriminate).
    rewrite (IH Hl Wl ltac:(discriminate) n ((k, v) :: acc) rest) by (simpl in *; lia).
    simpl. now rewrite <- List.app_assoc.
Qed.

Lemma dict_set_fresh (d : list (string * json)) (k : string) (v : json) :
  existsb (String.eqb k) (map fst d) = false ->
  dict_set d k v = (d ++ [(k, v)])%list.
Proof.
  induction d as [|[k' v'] d IH]; simpl; [reflexivity|].
  intros H. apply orb_false_iff in H as [H1 H2].
  rewrite String.eqb_sym, H1. now rewrite IH.
Qed.

Lemma dict_of_pairs_distinct (kvs : list (string * json)) :
  distinct_keys (map fst kvs) = true -> dict_of_pairs kvs = kvs.
Proof.
  unfold dict_of_pairs.
  assert (G : forall d,
             distinct_keys (map fst (d ++ kvs)%list) = true ->
             fold_left (fun d kv => dict_set d (fst kv) (snd kv)) kvs d = (d ++ kvs)%list).
  { induction kvs as [|[k v] kvs IH]; intros d H; simpl.
    - now rewrite List.app_nil_r.
    - rewrite dict_set_fresh.
      + rewrite IH; rewrite <- List.app_assoc; [reflexivity|exact H].
      + clear IH. induction d as [|[k' v'] d IHd]; [reflexivity|].
        simpl in H |- *. apply andb_prop in H as [H1 H2].
        rewrite (IHd H2), orb_false_r.
        apply negb_true_iff in H1. rewrite map_app, existsb_app in H1.
        apply orb_false_iff in H1 as [_ H1]. simpl in H1.
        apply orb_false_iff in H1 as [H1 _]. now rewrite String.eqb_sym. }
  intros H. now apply (G []).
Qed.

Lemma dumps_list_app (l : list json) (rest : string) :
  (dumps (JList l) ++ rest)%string
    = String "[" (join ", " (map dumps l) ++ String "]" rest).
Proof. simpl. now rewrite append_assoc. Qed.

Lemma dumps_dict_app (kvs : list (string * json)) (rest : string) :
  (dumps (JDict kvs) ++ rest)%string
    = String "{" (join ", " (map dump_member kvs) ++ String "}" rest).
Proof. simpl. now rewrite append_assoc. Qed.

Lemma scan_once_dumps (v : json) : scans v.
Proof.
  induction v as [|b|z|s|l IH|kvs IH] using json_ind; intros W n rest Hn T;
    (destruct n as [|n]; [simpl in Hn; lia|]).
  - reflexivity.
  - now destruct b.
  - now apply scan_once_int.
  - cbn [dumps]. rewrite dump_str_app. simpl. now rewrite scanstring_escape.
  - rewrite dumps_list_app. destruct l as [|v l].
    + reflexivity.
    + cbn [scan_once]. change (Ascii.eqb "[" dquote) with false.
      change (Ascii.eqb "[" "{") with false. change (Ascii.eqb "[" "[") with true.
      cbv iota.
      rewrite skip_ws_head by (apply head_ok_app, join_head; discriminate).
      rewrite (proj1 (expect_head _ (head_ok_app _ _ (join_head (v :: l) ltac:(discriminate))))).
      rewrite (scan_elements_dumps (v :: l) IH W ltac:(discriminate) n [] rest).
      * reflexivity.
      * simpl in Hn |- *. lia.
  - rewrite dumps_dict_app. destruct kvs as [|kv kvs].
    + reflexivity.
    + simpl in W. apply andb_prop in W as [W1 W2].
      cbn [scan_once]. change (Ascii.eqb "{" dquote) with false.
      change (Ascii.eqb "{" "{") with true. cbv iota.
      rewrite skip_ws_head by (apply members_head; discriminate).
      rewrite (proj2 (expect_head _ (members_head (kv :: kvs) _ ltac:(discriminate)))).
      rewrite (scan_members_dumps (kv :: kvs) IH W2 ltac:(discriminate) n [] rest).
      * simpl List.rev. simpl app. now rewrite dict_of_pairs_distinct.
      * simpl in Hn |- *. lia.
Qed.

Lemma length_append (a b : string) :
  String.length (a ++ b) = String.length a + String.length b.
Proof. induction a as [|x a IH]; simpl; [reflexivity|now rewrite IH]. Qed.

Lemma join_sizes (l : list json) :
  Forall (fun v => size v <= String.length (dumps v)) l ->
  fold_right (fun x k => S (size x + k)) 0 l
    <= S (String.length (join ", " (map dumps l))).
Proof.
  induction l as [|v l IH]; intros H; [simpl; lia|].
  inversion H as [|? ? Hv Hl]; subst. specialize (IH Hl).
  destruct l as [|v2 l].
  - cbn [join map fold_right]. lia.
  - change (join ", " (map dumps (v :: v2 :: l)))
      with (dumps v ++ ", " ++ join ", " (map dumps (v2 :: l))).
    rewrite !length_append. cbn [String.length].
    cbn [fold_right] in *. lia.
Qed.

Lemma members_sizes (kvs : list (string * json)) :
  Forall (fun kv => size (snd kv) <= String.length (dumps (snd kv))) kvs ->
  fold_right (fun kv k => S (size (snd kv) + k)) 0 kvs
    <= S (String.length (join ", " (map dump_member kvs))).
Proof.
  induction kvs as [|[k v] kvs IH]; intros H; [simpl; lia|].
  inversion H as [|? ? Hv Hl]; subst. specialize (IH Hl). simpl in Hv.
  destruct kvs as [|kv2 kvs].
  - cbn [join map fold_right]. unfold dump_member. rewrite !length_append.
    cbn [fst snd]. lia.
  - change (join ", " (map dump_member ((k, v) :: kv2 :: kvs)))
      with (dump_member (k, v) ++ ", " ++ join ", " (map dump_member (kv2 :: kvs))).
    unfold dump_member at 1. rewrite !length_append. cbn [String.length].
    cbn [fold_right fst snd] in *. lia.
Qed.

Lemma dumps_list_eq (l : list json) :
  dumps (JList l) = "[" ++ join ", " (map dumps l) ++ "]".
Proof. reflexivity. Qed.

Lemma dumps_dict_eq (kvs : list (string * json)) :
  dumps (JDict kvs) = "{" ++ join ", " (map dump_member kvs) ++ "}".
Proof. reflexivity. Qed.

Lemma size_le_length (v : json) : size v <= String.length (dumps v).
Proof.
  induction v as [|b|z|s|l IH|kvs IH] using json_ind.
  - simpl. lia.
  - destruct b; simpl; lia.
  - destruct (dump_int_first z) as (c & r & E & _). simpl. rewrite E. simpl. lia.
  - simpl. lia.
  - pose proof (join_sizes l IH) as H.
    rewrite dumps_list_eq, !length_append. cbn [size String.length]. lia.
  - pose proof (members_sizes kvs IH) as H.
    rewrite dumps_dict_eq, !length_append. cbn [size String.length]. lia.
Qed.

(** [json.loads(json.dumps(v))] is [v]. *)
Lemma loads_dumps (v : json) : well_formed v = true -> loads (dumps v) = Some v.
Proof.
  intros W. unfold loads.
  rewrite skip_ws_head by apply dumps_head.
  rewrite <- (append_nil_r (dumps v)) at 2.
  rewrite (scan_once_dumps v W _ "") by (pose proof (size_le_length v); simpl; trivial; lia).
  reflexivity.
Qed.

Lemma value_head_not_space (c : ascii) : value_head c = true -> isspace c = false.
Proof.
  destruct c as [[] [] [] [] [] [] [] []]; vm_compute; intros H;
    (discriminate || reflexivity).
Qed.

Lemma rstrip_app (p : ascii -> bool) (a b : string) :
  rstrip p b <> EmptyString -> rstrip p (a ++ b) = a ++ rstrip p b.
Proof.
  intros H. induction a as [|x a IH]; [reflexivity|].
  simpl. rewrite IH. destruct (a ++ rstrip p b) eqn:E; [|reflexivity].
  destruct a; simpl in E; [contradiction|discriminate].
Qed.

Lemma strip_dict_line (kvs : list (string * json)) :
  strip (dumps (JDict kvs) ++ String newline "") = dumps (JDict kvs).
Proof.
  unfold strip.
  assert (L : lstrip isspace (dumps (JDict kvs) ++ String newline "")
              = dumps (JDict kvs) ++ String newline "") by reflexivity.
  rewrite L, dumps_dict_eq, !append_assoc.
  set (J := join ", " (map dump_member kvs)).
  assert (R1 : rstrip isspace ("}" ++ String newline "") = "}") by reflexivity.
  assert (R2 : rstrip isspace (J ++ "}" ++ String newline "") = J ++ "}").
  { rewrite rstrip_app; rewrite R1; [reflexivity|discriminate]. }
  rewrite rstrip_app; rewrite R2; [reflexivity|].
  destruct J; discriminate.
Qed.

End JsonFacts.

(** ** The collection loop *)

Module CollectorFacts.

Import Collector Spec.

Lemma eq_str_true (v : json) (s : string) : eq_str v s = true -> v = JStr s.
Proof.
  destruct v; simpl; try discriminate.
  intros H. apply String.eqb_eq in H. now subst.
Qed.

Lemma channels_differ (m : event) :
  on_channel FIGHTS m = true -> on_channel MASTER m = false.
Proof.
  unfold on_channel. intros H. apply eq_str_true in H. now rewrite H.
Qed.

Lemma record_cases (m : event) (st : slots) :
  record m st =
    Slots (if on_channel FIGHTS m then payload m else fights_data st)
          (if on_channel FIGHTS m then master_data st
           else if on_channel MASTER m then payload m else master_data st).
Proof.
  unfold record, on_channel, payload.
  destruct (eq_str _ FIGHTS); [reflexivity|].
  destruct (eq_str _ MASTER); [reflexivity|].
  now destruct st.
Qed.

Lemma recorded_snoc (ms : list event) (m : event) (st : slots) :
  recorded (ms ++ [m]) st = record m (recorded ms st).
Proof. unfold recorded. now rewrite fold_left_app. Qed.

Lemma latest_snoc (ch : string) (ms : list event) (m : event) :
  latest ch (ms ++ [m]) = if on_channel ch m then payload m else latest ch ms.
Proof.
  unfold latest. rewrite filter_app. simpl.
  destruct (on_channel ch m).
  - now rewrite List.rev_app_distr.
  - now rewrite List.app_nil_r.
Qed.

Lemma recorded_latest (ms : list event) :
  recorded ms initial = Slots (latest FIGHTS ms) (latest MASTER ms).
Proof.
  induction ms as [|m ms IH] using rev_ind; [reflexivity|].
  rewrite recorded_snoc, IH, record_cases, !latest_snoc. simpl.
  destruct (on_channel FIGHTS m) eqn:F; [|reflexivity].
  now rewrite (channels_differ m F).
Qed.

Lemma events_app (a b : list tick) : events (a ++ b) = events a ++ events b.
Proof. unfold events. now rewrite flat_map_app. Qed.

Lemma recorded_app (a b : list event) (st : slots) :
  recorded (a ++ b) st = recorded b (recorded a st).
Proof. unfold recorded. now rewrite fold_left_app. Qed.

Lemma events_cons (t : tick) (ts : list tick) :
  events (t :: ts) = match got t with
                     | Some (JDict m) => m :: events ts
                     | _ => events ts
                     end.
Proof. unfold events. simpl. now destruct (got t) as [[]|]. Qed.

(** Turns before the deadline that take mappings and never make both
    variables truthy are gone through, one by one. *)
Lemma collect_through (T : Z) (pre rest : list tick) :
  forall st,
    before T pre = true ->
    mappings pre = true ->
    forallb (fun s => negb (complete s)) (states (events pre) st) = true ->
    collect T (pre ++ rest) st = collect T rest (recorded (events pre) st).
Proof.
  induction pre as [|t pre IH]; intros st Hb Hm Hs; [reflexivity|].
  simpl in Hb, Hm. apply andb_prop in Hb as [Hb1 Hb2]. apply andb_prop in Hm as [Hm1 Hm2].
  rewrite events_cons in *. simpl. rewrite Hb1.
  destruct (got t) as [[| | | | |m]|]; try discriminate.
  - simpl in Hs. apply andb_prop in Hs as [Hs1 Hs2].
    apply negb_true_iff in Hs1. rewrite Hs1.
    now apply IH.
  - now apply IH.
Qed.

(** The loop is left by [break] at the first turn that makes both variables
    truthy. *)
Lemma collect_breaks (T : Z) (pre rest : list tick) :
  forall st,
    before T pre = true ->
    mappings pre = true ->
    existsb complete (states (events pre) st) = true ->
    exists p0 t pre2,
      pre = p0 ++ t :: pre2 /\
      forallb (fun s => negb (complete s)) (states (events p0) st) = true /\
      complete (recorded (events (p0 ++ [t])) st) = true /\
      collect T (pre ++ rest) st = Broke (recorded (events (p0 ++ [t])) st).
Proof.
  induction pre as [|t pre IH]; intros st Hb Hm Hs; [discriminate|].
  simpl in Hb, Hm. apply andb_prop in Hb as [Hb1 Hb2]. apply andb_prop in Hm as [Hm1 Hm2].
  rewrite events_cons in Hs.
  destruct (got t) as [[| | | | |m]|] eqn:G; try discriminate.
  - simpl in Hs. destruct (complete (record m st)) eqn:C.
    + exists [], t, pre. cbn [app collect]. rewrite Hb1, G, C.
      rewrite events_cons, G. now repeat split.
    + simpl in Hs.
      destruct (IH (record m st) Hb2 Hm2 Hs) as (p0 & t' & p2 & E & N & C1 & R).
      exists (t :: p0), t', p2. subst pre. cbn [app collect]. rewrite Hb1, G, C.
      rewrite !events_cons, G. cbn [states forallb]. rewrite C.
      now repeat split.
  - destruct (IH st Hb2 Hm2 Hs) as (p0 & t' & p2 & E & N & C1 & R).
    exists (t :: p0), t', p2. subst pre. cbn [app collect]. rewrite Hb1, G.
    rewrite !events_cons, G. now repeat split.
Qed.

Lemma states_reach (ms : list event) :
  forall st,
    complete st = false ->
    complete (recorded ms st) = true ->
    existsb complete (states ms st) = true.
Proof.
  induction ms as [|m ms IH]; intros st H0 H; simpl in *.
  - congruence.
  - destruct (complete (record m st)) eqn:C; [reflexivity|]. now apply IH.
Qed.

(** At the head of the loop one of the two variables is falsy. *)
Lemma collect_timed_out_incomplete (T : Z) (ts : list tick) :
  forall st st',
    complete st = false ->
    collect T ts st = TimedOut st' ->
    complete st' = false.
Proof.
  induction ts as [|t ts IH]; intros st st' H0 H; simpl in H; [discriminate|].
  destruct (Z.ltb (now t) T).
  - destruct (got t) as [[| | | | |m]|]; try discriminate.
    + destruct (complete (record m st)) eqn:C; [discriminate|]. now apply (IH _ _ C).
    + now apply (IH _ _ H0).
  - now inversion H; subst.
Qed.

Lemma collect_broke_complete (T : Z) (ts : list tick) :
  forall st st',
    collect T ts st = Broke st' ->
    complete st' = true.
Proof.
  induction ts as [|t ts IH]; intros st st' H; simpl in H; [discriminate|].
  destruct (Z.ltb (now t) T); [|discriminate].
  destruct (got t) as [[| | | | |m]|]; try discriminate.
  - destruct (complete (record m st)) eqn:C.
    + now inversion H; subst.
    + now apply (IH _ _ H).
  - now apply (IH _ _ H).
Qed.

(** The loop ends once the clock is read at or after the deadline. *)
Lemma collect_ends (T : Z) (ts : list tick) :
  forall st,
    existsb (fun t => Z.leb T (now t)) ts = true ->
    forall st', collect T ts st <> Spinning st'.
Proof.
  induction ts as [|t ts IH]; intros st H st'; simpl in *; [discriminate|].
  destruct (Z.ltb_spec (now t) T) as [L|L].
  - replace (Z.leb T (now t)) with false in H by (symmetry; apply Z.leb_gt; lia).
    simpl in H.
    destruct (got t) as [[| | | | |m]|]; try discriminate.
    + destruct (complete (record m st)); [discriminate|]. now apply IH.
    + now apply IH.
  - discriminate.
Qed.

Lemma assemble_success (st : slots) :
  complete st = true -> assemble st = success st.
Proof.
  unfold complete, assemble. intros H. apply andb_prop in H as [F M].
  now rewrite F, M.
Qed.

Lemma assemble_failure (st : slots) :
  complete st = false -> assemble st = failure st.
Proof.
  unfold complete, assemble, failure. intros H.
  destruct (truthy (fights_data st)), (truthy (master_data st));
    simpl in *; (discriminate || reflexivity).
Qed.

(** When the loop is over, its variables are those left by the events of
    the turns it went through. *)
Lemma collect_exit_recorded (T : Z) (ts : list tick) :
  forall st st',
    collect T ts st = Broke st' \/ collect T ts st = TimedOut st' ->
    exists pre rest,
      ts = pre ++ rest /\ before T pre = true /\ mappings pre = true /\
      st' = recorded (events pre) st.
Proof.
  induction ts as [|t ts IH]; intros st st' H; simpl in H.
  - now destruct H.
  - destruct (Z.ltb (now t) T) eqn:L.
    + destruct (got t) as [[| | | | |m]|] eqn:G; try (now destruct H).
      * destruct (complete (record m st)) eqn:C.
        -- exists [t], ts. rewrite events_cons, G. simpl. rewrite L, G.
           destruct H as [H|H]; inversion H. now subst.
        -- destruct (IH _ _ H) as (pre & rest & E & B & M & R).
           exists (t :: pre), rest. rewrite events_cons, G. simpl. rewrite L, G, B, M.
           now subst.
      * destruct (IH _ _ H) as (pre & rest & E & B & M & R).
        exists (t :: pre), rest. rewrite events_cons, G. simpl. rewrite L, G, B, M.
        now subst.
    + exists [], (t :: ts). destruct H as [H|H]; inversion H. now subst.
Qed.

End CollectorFacts.

(** ** Whole runs *)

Module RunFacts.

Import Collector Run Spec CollectorFacts.

Lemma writes_ok_each (w : world) :
  writes_ok w = true ->
  stdin_fault w 0 = None /\ stdin_fault w 1 = None /\
  stdin_fault w 2 = None /\ stdin_fault w 3 = None.
Proof.
  unfold writes_ok. simpl.
  destruct (stdin_fault w 0), (stdin_fault w 1), (stdin_fault w 2), (stdin_fault w 3);
    simpl; intros H; try discriminate; now repeat split.
Qed.

Lemma launch_some (w : world) (log_file : string) (lines : list string) :
  launch w log_file = Some lines ->
  download_parser_if_needed w = true /\ script_exists w = true /\
  readlines w log_file = inr lines /\ popen w = None.
Proof.
  unfold launch.
  destruct (download_parser_if_needed w), (script_exists w); simpl; try discriminate.
  destruct (readlines w log_file) as [e|l]; try discriminate.
  destruct (popen w); try discriminate.
  intros H. inversion H. now subst.
Qed.

(** A run whose launch and writes go well is decided by its loop. *)
Lemma run_parser_collects (w : world) (log_file report_code : string) (region : Z)
    (lines : list string) :
  launch w log_file = Some lines ->
  writes_ok w = true ->
  run_parser w log_file report_code region =
    match collect (deadline w) (ticks w) initial with
    | Broke st | TimedOut st =>
        (Return (assemble st), script lines report_code region ++ [Terminate])
    | Raised e => (Raise e, script lines report_code region)
    | Spinning _ => (Running, script lines report_code region)
    end.
Proof.
  intros L W.
  destruct (launch_some _ _ _ L) as (D & X & R & P).
  destruct (writes_ok_each _ W) as (W0 & W1 & W2 & W3).
  unfold run_parser, session, send, sleep, collecting, bind, emit, ret.
  rewrite D, X, R, P, W0, W1, W2, W3. simpl.
  now destruct (collect (deadline w) (ticks w) initial).
Qed.

Lemma launch_none (w : world) (log_file report_code : string) (region : Z) :
  launch w log_file = None ->
  exists text, run_parser w log_file report_code region = (Return (error_only text), []).
Proof.
  unfold launch, run_parser.
  destruct (download_parser_if_needed w); simpl; [|now eexists].
  destruct (script_exists w); simpl; [|now eexists].
  destruct (readlines w log_file) as [e|l]; [now eexists|].
  destruct (popen w); [now eexists|discriminate].
Qed.

(** A run whose k-th write is the first to raise stops there. *)
Lemma run_parser_faulted (w : world) (log_file report_code : string) (region : Z)
    (lines : list string) (k : nat) (e : exn) :
  launch w log_file = Some lines ->
  k < 4 ->
  (forall i, i < k -> stdin_fault w i = None) ->
  stdin_fault w k = Some e ->
  run_parser w log_file report_code region
    = (Raise e, firstn (2 + 2 * k) (script lines report_code region)).
Proof.
  intros L K Hlt Hk.
  destruct (launch_some _ _ _ L) as (D & X & R & P).
  unfold run_parser, session, send, sleep, collecting, bind, emit, ret, raise.
  rewrite D, X, R, P. simpl.
  destruct k as [|[|[|[|k]]]]; try lia.
  - now rewrite Hk.
  - rewrite (Hlt 0) by lia. simpl. now rewrite Hk.
  - rewrite (Hlt 0), (Hlt 1) by lia. simpl. now rewrite Hk.
  - rewrite (Hlt 0), (Hlt 1), (Hlt 2) by lia. simpl. now rewrite Hk.
Qed.

(** Either no write raises or one of the four is the first to. *)
Lemma writes_ok_or_fault (w : world) :
  writes_ok w = true \/
  exists k e, k < 4 /\ (forall i, i < k -> stdin_fault w i = None) /\
              stdin_fault w k = Some e.
Proof.
  unfold writes_ok. simpl.
  destruct (stdin_fault w 0) as [e0|] eqn:F0.
  { right. exists 0, e0. repeat split; [lia| |assumption]. intros i Hi. lia. }
  destruct (stdin_fault w 1) as [e1|] eqn:F1.
  { right. exists 1, e1. repeat split; [lia| |assumption].
    intros i Hi. assert (i = 0) by lia. now subst. }
  destruct (stdin_fault w 2) as [e2|] eqn:F2.
  { right. exists 2, e2. repeat split; [lia| |assumption].
    intros i Hi. assert (i = 0 \/ i = 1) as [|] by lia; now subst. }
  destruct (stdin_fault w 3) as [e3|] eqn:F3.
  { right. exists 3, e3. repeat split; [lia| |assumption].
    intros i Hi. assert (i = 0 \/ i = 1 \/ i = 2) as [|[|]] by lia; now subst. }
  now left.
Qed.

Lemma script_no_terminate (lines : list string) (report_code : string) (region : Z)
    (n : nat) :
  ~ In Terminate (firstn n (script lines report_code region)).
Proof.
  intros H.
  assert (H' : In Terminate (script lines report_code region)).
  { rewrite <- (firstn_skipn n (script lines report_code region)).
    apply in_or_app. now left. }
  simpl in H'.
  repeat (destruct H' as [H'|H']; [discriminate|]). exact H'.
Qed.

(** The three ways a run can go. *)
Lemma run_parser_cases (w : world) (log_file report_code : string) (region : Z) :
  (exists text,
      run_parser w log_file report_code region = (Return (error_only text), [])) \/
  (exists lines k e,
      launch w log_file = Some lines /\
      run_parser w log_file report_code region
        = (Raise e, firstn (2 + 2 * k) (script lines report_code region))) \/
  (exists lines,
      launch w log_file = Some lines /\ writes_ok w = true /\
      run_parser w log_file report_code region =
        match collect (deadline w) (ticks w) initial with
        | Broke st | TimedOut st =>
            (Return (assemble st), script lines report_code region ++ [Terminate])
        | Raised e => (Raise e, script lines report_code region)
        | Spinning _ => (Running, script lines report_code region)
        end).
Proof.
  destruct (launch w log_file) as [lines|] eqn:L.
  - destruct (writes_ok_or_fault w) as [W|(k & e & K & Hlt & Hk)].
    + right. right. exists lines. repeat split; [assumption|].
      now apply run_parser_collects.
    + right. left. exists lines, k, e. split; [reflexivity|].
      now apply run_parser_faulted.
  - left. now apply launch_none.
Qed.

End RunFacts.

(** ** The claims about collection and the Outcome *)

Module Outcome.

Import Collector Run Spec CollectorFacts RunFacts.

(** C1, as stated, fails: both channels report before the deadline, the
    fights payload being an empty mapping, and the run ends at the deadline
    with the failure mapping. *)
Lemma C1_empty_payload_counterexample :
  let ts := [Tick 100 (Some (event_of FIGHTS (JDict [])));
             Tick 200 (Some (event_of MASTER (JDict [("code", JStr "a1")])));
             Tick 300 None; Tick 10000 None] in
  let w := calm no_fault ts in
  received FIGHTS (firstn 2 ts) = true /\
  received MASTER (firstn 2 ts) = true /\
  before (deadline w) (firstn 2 ts) = true /\
  collect (deadline w) (ticks w) initial
    = TimedOut (Slots (JDict []) (JDict [("code", JStr "a1")])) /\
  fst (run_parser w "log" "a1" 1)
    = Return (failure (Slots (JDict []) (JDict [("code", JStr "a1")]))) /\
  is_success (failure (Slots (JDict []) (JDict [("code", JStr "a1")]))) = false.
Proof. repeat split. Qed.

(** C1, amended: when, at some turn before the deadline, the payloads last
    received on both channels are truthy, all events taken so far being
    mappings, the loop is left by [break] at the first turn at which this is
    so, without the clock being read again, and the Outcome is the success
    mapping with the two payloads last received up to that turn. *)
Theorem C1_early_return_on_truthy_payloads
    (w : world) (log_file report_code : string) (region : Z)
    (lines : list string) (pre rest : list tick) :
  launch w log_file = Some lines ->
  writes_ok w = true ->
  ticks w = pre ++ rest ->
  before (deadline w) pre = true ->
  mappings pre = true ->
  truthy (latest FIGHTS (events pre)) = true ->
  truthy (latest MASTER (events pre)) = true ->
  exists p0 t pre2 st,
    pre = p0 ++ t :: pre2 /\
    forallb (fun s => negb (complete s)) (states (events p0) initial) = true /\
    st = Slots (latest FIGHTS (events (p0 ++ [t])))
               (latest MASTER (events (p0 ++ [t]))) /\
    truthy (fights_data st) = true /\
    truthy (master_data st) = true /\
    collect (deadline w) (ticks w) initial = Broke st /\
    run_parser w log_file report_code region
      = (Return (JDict [("fights", fights_data st); ("master", master_data st)]),
         script lines report_code region ++ [Terminate]).
Proof.
  intros L W E Hb Hm F M.
  assert (C : complete (recorded (events pre) initial) = true).
  { rewrite recorded_latest. unfold complete. simpl. now rewrite F, M. }
  apply states_reach in C; [|reflexivity].
  destruct (collect_breaks (deadline w) pre rest initial Hb Hm C)
    as (p0 & t & p2 & E1 & N & C1 & R).
  exists p0, t, p2, (recorded (events (p0 ++ [t])) initial).
  rewrite <- E in R.
  split; [exact E1|]. split; [exact N|].
  split; [apply recorded_latest|].
  pose proof C1 as C2. unfold complete in C2. apply andb_prop in C2 as [F1 M1].
  repeat split; try assumption.
  rewrite (run_parser_collects _ _ _ _ _ L W), R.
  now rewrite (assemble_success _ C1).
Qed.

Lemma C1_early_return_witness :
  let ts := [Tick 100 (Some (event_of FIGHTS (JList [JInt 7])));
             Tick 200 None;
             Tick 300 (Some (event_of MASTER (JDict [("code", JStr "a1")])));
             Tick 400 (Some (event_of FIGHTS (JList [])));
             Tick 10000 None] in
  let w := calm no_fault ts in
  exists p0 t pre2 st,
    firstn 3 ts = p0 ++ t :: pre2 /\
    forallb (fun s => negb (complete s)) (states (events p0) initial) = true /\
    st = Slots (latest FIGHTS (events (p0 ++ [t])))
               (latest MASTER (events (p0 ++ [t]))) /\
    truthy (fights_data st) = true /\
    truthy (master_data st) = true /\
    collect (deadline w) (ticks w) initial = Broke st /\
    run_parser w "log" "a1" 1
      = (Return (JDict [("fights", fights_data st); ("master", master_data st)]),
         script ["line one"; "line two"] "a1" 1 ++ [Terminate]).
Proof.
  intros ts w.
  apply (C1_early_return_on_truthy_payloads w "log" "a1" 1
           ["line one"; "line two"] (firstn 3 ts) (skipn 3 ts));
    reflexivity.
Defined.

(** C2, as stated, fails: two payloads are received on the fights channel
    before the deadline, and the failure mapping that is returned carries the
    second one only. *)
Lemma C2_earlier_payload_counterexample :
  let ts := [Tick 100 (Some (event_of FIGHTS (JList [JInt 1])));
             Tick 200 (Some (event_of FIGHTS (JList [JInt 2])));
             Tick 10000 None] in
  let w := calm no_fault ts in
  In (JList [JInt 1]) (map payload (events (firstn 2 ts))) /\
  before (deadline w) (firstn 2 ts) = true /\
  run_parser w "log" "a1" 1
    = (Return (JDict [("error", JStr "Parser did not return complete data");
                      ("fights", JList [JInt 2]); ("master", JNull)]),
       script ["line one"; "line two"] "a1" 1 ++ [Terminate]) /\
  ~ In (JList [JInt 1])
       (map snd [("error", JStr "Parser did not return complete data");
                 ("fights", JList [JInt 2]); ("master", JNull)]).
Proof.
  repeat split.
  - simpl. now left.
  - simpl. intros [H|[H|[H|H]]]; try discriminate; exact H.
Qed.

(** C2, amended: when the clock is read at or after the deadline, every
    earlier turn having read it before the deadline and taken a mapping or
    nothing, and the two variables never having been truthy together,
    [run_parser] returns - it does not raise - the mapping with the error
    descriptor, whose [fights] and [master] entries are the payloads last
    received on the two channels ([None] for a channel that sent nothing),
    and the worker is terminated. *)
Theorem C2_deadline_gives_failure_with_partial_payloads
    (w : world) (log_file report_code : string) (region : Z)
    (lines : list string) (pre rest : list tick) (t : tick) :
  launch w log_file = Some lines ->
  writes_ok w = true ->
  ticks w = pre ++ t :: rest ->
  before (deadline w) pre = true ->
  (deadline w <= now t)%Z ->
  mappings pre = true ->
  forallb (fun s => negb (complete s)) (states (events pre) initial) = true ->
  let st := Slots (latest FIGHTS (events pre)) (latest MASTER (events pre)) in
  collect (deadline w) (ticks w) initial = TimedOut st /\
  (truthy (fights_data st) = false \/ truthy (master_data st) = false) /\
  run_parser w log_file report_code region
    = (Return (JDict [("error", JStr "Parser did not return complete data");
                      ("fights", fights_data st); ("master", master_data st)]),
       script lines report_code region ++ [Terminate]).
Proof.
  intros L W E Hb Ht Hm Hs st.
  assert (R : collect (deadline w) (ticks w) initial = TimedOut st).
  { rewrite E, (collect_through _ pre (t :: rest) initial Hb Hm Hs).
    simpl. replace (Z.ltb (now t) (deadline w)) with false
      by (symmetry; apply Z.ltb_ge; exact Ht).
    unfold st. now rewrite recorded_latest. }
  assert (C : complete st = false).
  { apply (collect_timed_out_incomplete _ _ initial st eq_refl R). }
  split; [exact R|]. split.
  - unfold complete in C. apply andb_false_iff in C. exact C.
  - rewrite (run_parser_collects _ _ _ _ _ L W), R.
    now rewrite (assemble_failure _ C).
Qed.

Lemma C2_deadline_witness :
  let ts := [Tick 100 (Some (event_of FIGHTS (JList [JInt 7])));
             Tick 200 None;
             Tick 300 (Some (event_of "ipc-progress" (JInt 50)));
             Tick 10000 None; Tick 10100 None] in
  let w := calm no_fault ts in
  let st := Slots (JList [JInt 7]) JNull in
  collect (deadline w) (ticks w) initial = TimedOut st /\
  (truthy (fights_data st) = false \/ truthy (master_data st) = false) /\
  run_parser w "log" "a1" 1
    = (Return (JDict [("error", JStr "Parser did not return complete data");
                      ("fights", fights_data st); ("master", master_data st)]),
       script ["line one"; "line two"] "a1" 1 ++ [Terminate]).
Proof.
  intros ts w.
  apply (C2_deadline_gives_failure_with_partial_payloads w "log" "a1" 1
           ["line one"; "line two"] (firstn 3 ts) [Tick 10100 None] (Tick 10000 None));
    reflexivity.
Defined.

(** C5, as stated, fails: a second event on the fights channel replaces the
    payload recorded for the first. *)
Lemma C5_overwrite_counterexample :
  let e1 := [("channel", JStr FIGHTS); ("data", JList [JInt 1])] in
  let e2 := [("channel", JStr FIGHTS); ("data", JList [JInt 2])] in
  let ts := [Tick 100 (Some (JDict e1)); Tick 200 (Some (JDict e2)); Tick 10000 None] in
  collect 10000 (firstn 1 ts) initial = Spinning (Slots (JList [JInt 1]) JNull) /\
  collect 10000 (firstn 2 ts) initial = Spinning (Slots (JList [JInt 2]) JNull) /\
  collect 10000 ts initial = TimedOut (Slots (JList [JInt 2]) JNull) /\
  fights_data (recorded [e1; e2] initial) <> fights_data (recorded [e1] initial).
Proof. repeat split. discriminate. Qed.

(** C5, amended: an event on an expected channel replaces the payload
    recorded for that channel and leaves the other one alone, an event on
    any other channel changes nothing.  So, after the turns [p0] that the loop
    has gone through, the payload recorded for a channel is that of the last
    event of [p0] on that channel ([None] when there is none): this is what
    the loop holds when the deadline ends it at the next turn, and when the
    next turn ends it by [break] the payloads are the last ones up to and
    with that turn. *)
Theorem C5_recorded_payload_is_the_latest
    (T : Z) (p0 : list tick) (t : tick) (rest : list tick) :
  before T p0 = true ->
  mappings p0 = true ->
  forallb (fun s => negb (complete s)) (states (events p0) initial) = true ->
  let st := Slots (latest FIGHTS (events p0)) (latest MASTER (events p0)) in
  (forall ch ms m,
      latest ch (ms ++ [m]) = if on_channel ch m then payload m else latest ch ms) /\
  (forall rest', collect T (p0 ++ rest') initial = collect T rest' st) /\
  ((T <= now t)%Z -> collect T (p0 ++ t :: rest) initial = TimedOut st) /\
  ((now t < T)%Z ->
   forall m, got t = Some (JDict m) ->
             complete (record m st) = true ->
             collect T (p0 ++ t :: rest) initial
               = Broke (Slots (latest FIGHTS (events (p0 ++ [t])))
                              (latest MASTER (events (p0 ++ [t]))))).
Proof.
  intros B M N st.
  assert (G : forall rest', collect T (p0 ++ rest') initial = collect T rest' st).
  { intros rest'. rewrite (collect_through T p0 rest' initial B M N).
    unfold st. now rewrite recorded_latest. }
  split; [intros ch ms m; apply latest_snoc|]. split; [exact G|]. split.
  - intros D. rewrite G. cbn [collect].
    now replace (Z.ltb (now t) T) with false by (symmetry; apply Z.ltb_ge; exact D).
  - intros D m Gt C. rewrite G. cbn [collect].
    replace (Z.ltb (now t) T) with true by (symmetry; apply Z.ltb_lt; exact D).
    rewrite Gt, C. f_equal.
    rewrite <- recorded_latest, events_app, recorded_app, recorded_latest.
    fold st. rewrite events_cons, Gt. reflexivity.
Qed.

Lemma C5_recorded_payload_witness :
  let e1 := [("channel", JStr FIGHTS); ("data", JList [JInt 1])] in
  let e2 := [("channel", JStr FIGHTS); ("data", JList [JInt 2])] in
  let p0 := [Tick 100 (Some (JDict e1)); Tick 200 (Some (JDict e2))] in
  let t := Tick 10000 None in
  let st := Slots (JList [JInt 2]) JNull in
  (forall ch ms m,
      latest ch (ms ++ [m]) = if on_channel ch m then payload m else latest ch ms) /\
  (forall rest', collect 10000 (p0 ++ rest') initial = collect 10000 rest' st) /\
  ((10000 <= now t)%Z -> collect 10000 (p0 ++ t :: []) initial = TimedOut st) /\
  ((now t < 10000)%Z ->
   forall m, got t = Some (JDict m) ->
             complete (record m st) = true ->
             collect 10000 (p0 ++ t :: []) initial
               = Broke (Slots (latest FIGHTS (events (p0 ++ [t])))
                              (latest MASTER (events (p0 ++ [t]))))).
Proof.
  intros e1 e2 p0 t st.
  apply (C5_recorded_payload_is_the_latest 10000 p0 t []); reflexivity.
Defined.

(** C9: whenever [run_parser] returns after the spawn, the Outcome is the
    success mapping exactly when the payloads last received on both channels
    are truthy; when one of them is falsy - no event on the channel, or a last
    event with an empty payload - it is the mapping with the error
    descriptor, whether or not both channels sent events before the
    deadline. *)
Theorem C9_success_only_with_truthy_payloads
    (w : world) (log_file report_code : string) (region : Z)
    (o : json) (tr : list action) :
  run_parser w log_file report_code region = (Return o, tr) ->
  In Spawn tr ->
  exists pre rest,
    ticks w = pre ++ rest /\
    before (deadline w) pre = true /\ mappings pre = true /\
    let st := Slots (latest FIGHTS (events pre)) (latest MASTER (events pre)) in
    o = (if truthy (fights_data st) && truthy (master_data st)
         then success st else failure st) /\
    is_success o = truthy (fights_data st) && truthy (master_data st) /\
    has_error o = negb (truthy (fights_data st) && truthy (master_data st)).
Proof.
  intros R S.
  destruct (run_parser_cases w log_file report_code region)
    as [(text & E)|[(lines & k & e & L & E)|(lines & L & W & E)]];
    rewrite E in R.
  - inversion R. subst. destruct S.
  - discriminate.
  - destruct (collect (deadline w) (ticks w) initial) as [st|st|e|st] eqn:C;
      try discriminate.
    + destruct (collect_exit_recorded _ _ _ _ (or_introl C))
        as (pre & rest & E1 & B & M & R1).
      exists pre, rest. rewrite recorded_latest in R1.
      pose proof (collect_broke_complete _ _ _ _ C) as K.
      inversion R; subst o tr. rewrite (assemble_success _ K).
      cbv zeta. rewrite <- R1. unfold complete in K. rewrite K.
      now repeat split.
    + destruct (collect_exit_recorded _ _ _ _ (or_intror C))
        as (pre & rest & E1 & B & M & R1).
      exists pre, rest. rewrite recorded_latest in R1.
      pose proof (collect_timed_out_incomplete _ _ initial st eq_refl C) as K.
      inversion R; subst o tr. rewrite (assemble_failure _ K).
      cbv zeta. rewrite <- R1. unfold complete in K. rewrite K.
      now repeat split.
Qed.

Lemma C9_empty_master_payload_witness :
  let ts := [Tick 100 (Some (event_of MASTER (JDict [])));
             Tick 200 (Some (event_of FIGHTS (JList [JInt 7])));
             Tick 10000 None] in
  let w := calm no_fault ts in
  received FIGHTS ts = true /\ received MASTER ts = true /\
  exists pre rest,
    ticks w = pre ++ rest /\
    before (deadline w) pre = true /\ mappings pre = true /\
    let st := Slots (latest FIGHTS (events pre)) (latest MASTER (events pre)) in
    failure (Slots (JList [JInt 7]) (JDict []))
      = (if truthy (fights_data st) && truthy (master_data st)
         then success st else failure st) /\
    is_success (failure (Slots (JList [JInt 7]) (JDict [])))
      = truthy (fights_data st) && truthy (master_data st) /\
    has_error (failure (Slots (JList [JInt 7]) (JDict [])))
      = negb (truthy (fights_data st) && truthy (master_data st)).
Proof.
  intros ts w. split; [reflexivity|]. split; [reflexivity|].
  apply (C9_success_only_with_truthy_payloads w "log" "a1" 1
           (failure (Slots (JList [JInt 7]) (JDict [])))
           (script ["line one"; "line two"] "a1" 1 ++ [Terminate])).
  - reflexivity.
  - simpl. now left.
Defined.

End Outcome.

(** ** The claims about the session with the worker *)

Module Session.

Import Json Collector Run Spec CollectorFacts RunFacts JsonFacts.

(** C6, as stated, fails: the first write raises, the exception leaves
    [run_parser], and the worker that was spawned is not terminated. *)
Lemma C6_failed_write_counterexample :
  let w := calm (fault_at 0) [Tick 100 None; Tick 10000 None] in
  run_parser w "log" "a1" 1 = (Raise broken_pipe, [Spawn; StartThread]) /\
  In Spawn (snd (run_parser w "log" "a1" 1)) /\
  ~ In Terminate (snd (run_parser w "log" "a1" 1)) /\
  forall o, fst (run_parser w "log" "a1" 1) <> Return o.
Proof.
  repeat split.
  - simpl. now left.
  - simpl. intros [H|[H|H]]; try discriminate; exact H.
  - intros o. discriminate.
Qed.

(** C6, amended: on every exit path after the spawn that returns an Outcome
    (success or partial result) the worker has been terminated, once and as
    the last action; an exit by an exception, such as a failed write to the
    worker's stdin, returns no Outcome and leaves the worker unterminated.
    The run ends once the clock is read at or after the deadline. *)
Theorem C6_terminated_when_an_outcome_is_returned
    (w : world) (log_file report_code : string) (region : Z)
    (res : result) (tr : list action) :
  run_parser w log_file report_code region = (res, tr) ->
  In Spawn tr ->
  match res with
  | Return o => exists tr', tr = tr' ++ [Terminate] /\ ~ In Terminate tr'
  | Raise _ => ~ In Terminate tr
  | Running =>
      ~ In Terminate tr /\
      existsb (fun t => Z.leb (deadline w) (now t)) (ticks w) = false
  end.
Proof.
  intros R S.
  destruct (run_parser_cases w log_file report_code region)
    as [(text & E)|[(lines & k & e & L & E)|(lines & L & W & E)]];
    rewrite E in R.
  - inversion R. subst. destruct S.
  - replace res with (Raise e) by congruence.
    replace tr with (firstn (2 + 2 * k) (script lines report_code region))
      by congruence.
    apply script_no_terminate.
  - pose proof (script_no_terminate lines report_code region
                  (length (script lines report_code region))) as N.
    rewrite firstn_all in N.
    destruct (collect (deadline w) (ticks w) initial) as [st|st|e|st] eqn:C;
      inversion R; subst.
    + now exists (script lines report_code region).
    + now exists (script lines report_code region).
    + exact N.
    + split; [exact N|].
      destruct (existsb _ (ticks w)) eqn:X; [|reflexivity].
      exfalso. exact (collect_ends _ _ initial X st C).
Qed.

Lemma C6_terminated_witness :
  let w := calm no_fault [Tick 100 (Some (event_of FIGHTS (JInt 3))); Tick 10000 None] in
  exists tr', script ["line one"; "line two"] "a1" 2 ++ [Terminate] = tr' ++ [Terminate]
              /\ ~ In Terminate tr'.
Proof.
  intros w.
  apply (C6_terminated_when_an_outcome_is_returned w "log" "a1" 2
           (Return (failure (Slots (JInt 3) JNull)))
           (script ["line one"; "line two"] "a1" 2 ++ [Terminate])).
  - reflexivity.
  - simpl. now left.
Defined.

(** C7, as stated, fails: the third write raises after both channels could
    have been collected; [run_parser] returns no Outcome, the exception
    reaches the caller. *)
Lemma C7_failed_write_counterexample :
  let ts := [Tick 100 (Some (event_of FIGHTS (JList [JInt 7])));
             Tick 200 (Some (event_of MASTER (JDict [("code", JStr "a1")])));
             Tick 10000 None] in
  let w := calm (fault_at 2) ts in
  fst (run_parser w "log" "a1" 1) = Raise broken_pipe /\
  (forall o, fst (run_parser w "log" "a1" 1) <> Return o) /\
  collect (deadline w) (ticks w) initial
    = Broke (Slots (JList [JInt 7]) (JDict [("code", JStr "a1")])).
Proof.
  repeat split. intros o. discriminate.
Qed.

(** C7, amended: when a write to the worker's stdin raises, [run_parser]
    sends no further command and the exception reaches the caller: no
    Outcome is returned, whatever events the queue holds, and the worker is
    not terminated. *)
Theorem C7_failed_write_reaches_the_caller
    (w : world) (log_file report_code : string) (region : Z)
    (lines : list string) (k : nat) (e : exn) :
  launch w log_file = Some lines ->
  k < 4 ->
  (forall i, i < k -> stdin_fault w i = None) ->
  stdin_fault w k = Some e ->
  let run := run_parser w log_file report_code region in
  fst run = Raise e /\
  (forall o, fst run <> Return o) /\
  written (snd run)
    = map (fun i => encode (command_at lines report_code region i)) (seq 0 k) /\
  ~ In Terminate (snd run).
Proof.
  intros L K Hlt Hk run. unfold run.
  rewrite (run_parser_faulted _ _ _ _ _ _ _ L K Hlt Hk). cbn [fst snd].
  split; [reflexivity|]. split; [intros o; discriminate|]. split.
  - destruct k as [|[|[|[|k]]]]; try lia; reflexivity.
  - apply script_no_terminate.
Qed.

Lemma C7_failed_write_witness :
  let ts := [Tick 100 (Some (event_of FIGHTS (JList [JInt 7]))); Tick 10000 None] in
  let w := calm (fault_at 3) ts in
  let run := run_parser w "log" "a1" 1 in
  fst run = Raise broken_pipe /\
  (forall o, fst run <> Return o) /\
  written (snd run)
    = map (fun i => encode (command_at ["line one"; "line two"] "a1" 1 i)) (seq 0 3) /\
  ~ In Terminate (snd run).
Proof.
  intros ts w.
  apply (C7_failed_write_reaches_the_caller w "log" "a1" 1
           ["line one"; "line two"] 3 broken_pipe).
  - reflexivity.
  - lia.
  - intros i Hi. destruct i as [|[|[|i]]]; [reflexivity|reflexivity|reflexivity|lia].
  - reflexivity.
Defined.

(** C8, as stated, fails: when [Popen] raises, or when the bundle is not
    there, nothing is raised; [run_parser] returns a mapping. *)
Lemma C8_no_launch_error_counterexample :
  let w1 := World true true (fun _ => inr ["line one"])
              (Some "[Errno 2] No such file or directory: 'node'") no_fault 0 [] in
  let w2 := World true false (fun _ => inr ["line one"]) None no_fault 0 [] in
  run_parser w1 "log" "a1" 1
    = (Return (JDict [("error",
         JStr "Failed to start Node.js: [Errno 2] No such file or directory: 'node'")]), []) /\
  run_parser w2 "log" "a1" 1
    = (Return (JDict [("error", JStr "Parser script not found")]), []) /\
  (forall e, fst (run_parser w1 "log" "a1" 1) <> Raise e) /\
  (forall e, fst (run_parser w2 "log" "a1" 1) <> Raise e).
Proof. repeat split; intros e; discriminate. Qed.

(** C8, amended: when the bundle cannot be obtained or is not there, or
    when the worker process cannot be spawned, [run_parser] raises nothing:
    it returns a mapping that holds an error descriptor and nothing else - no
    payload - and it has sent no command, started no thread and holds no
    process. *)
Theorem C8_launch_failure_returns_an_error_mapping
    (w : world) (log_file report_code : string) (region : Z) :
  download_parser_if_needed w = false \/
  script_exists w = false \/
  (exists lines e, readlines w log_file = inr lines /\ popen w = Some e) ->
  exists text,
    run_parser w log_file report_code region
      = (Return (JDict [("error", JStr text)]), []) /\
    (text = "Parser download failed" \/
     text = "Parser script not found" \/
     exists e, popen w = Some e /\ text = ("Failed to start Node.js: " ++ e)%string).
Proof.
  intros H. unfold run_parser, error_only.
  destruct (download_parser_if_needed w) eqn:D; simpl.
  2:{ eexists. split; [reflexivity|]. now left. }
  destruct (script_exists w) eqn:X; simpl.
  2:{ eexists. split; [reflexivity|]. right. now left. }
  destruct H as [H|[H|(lines & e & R & P)]]; try discriminate.
  rewrite R, P. eexists. split; [reflexivity|]. right. right. now exists e.
Qed.

Lemma C8_launch_failure_witness :
  let w := World true true (fun _ => inr ["line one"]) (Some "no node") no_fault 0 [] in
  exists text,
    run_parser w "log" "a1" 1 = (Return (JDict [("error", JStr text)]), []) /\
    (text = "Parser download failed" \/
     text = "Parser script not found" \/
     exists e, popen w = Some e /\ text = ("Failed to start Node.js: " ++ e)%string).
Proof.
  intros w.
  apply (C8_launch_failure_returns_an_error_mapping w "log" "a1" 1).
  right. right. exists ["line one"], "no node". split; reflexivity.
Defined.

Lemma region_str_name (region : Z) : region_str region = region_name region.
Proof.
  unfold region_str, region_name, region_map.
  destruct region as [|p|p]; try reflexivity.
  do 3 (try destruct p as [p|p|]; try reflexivity).
Qed.

Lemma region_name_cases (region : Z) :
  In (region_name region) ["NA"; "EU"; "JP"; "CN"; "KR"].
Proof.
  unfold region_name.
  destruct region as [|p|p]; try (simpl; tauto).
  do 3 (try destruct p as [p|p|]; try (simpl; tauto)).
Qed.

Lemma stripped_lines_well_formed (lines : list string) :
  forallb well_formed (map (fun l => JStr (rstrip (in_chars CRLF) l)) lines) = true.
Proof. induction lines as [|l lines IH]; [reflexivity|exact IH]. Qed.

(** C10: the second line written to the worker is the text of the
    [parse-lines] command - message kind, id 1, the lines of the log without
    their line ends, [isLive], [region], [selectedFights] - followed by a
    newline; the text ends with the [region] member and the empty
    [selectedFights], and read back it is that mapping.  The region string in
    it is [NA], [EU], [JP], [CN], [KR] for the codes 1 to 5 and [NA] for
    every other integer. *)
Theorem C10_region_string_of_parse_lines
    (w : world) (log_file report_code : string) (region : Z) (lines : list string) :
  launch w log_file = Some lines ->
  stdin_fault w 0 = None ->
  stdin_fault w 1 = None ->
  let name := region_name region in
  let sent := JDict [("message", JStr "parse-lines"); ("id", JInt 1);
                     ("lines", JList (map (fun l => JStr (rstrip (in_chars CRLF) l)) lines));
                     ("isLive", JBool false); ("region", JStr name);
                     ("selectedFights", JList [])] in
  let q := String dquote "" in
  nth_error (written (snd (run_parser w log_file report_code region))) 1
    = Some (dumps sent ++ String newline "")%string /\
  (exists pre,
      dumps sent
      = (pre ++ ", " ++ q ++ "region" ++ q ++ ": " ++ q ++ name ++ q
             ++ ", " ++ q ++ "selectedFights" ++ q ++ ": []}")%string) /\
  loads (strip (dumps sent ++ String newline "")) = Some sent /\
  (region = 1%Z -> name = "NA") /\
  (region = 2%Z -> name = "EU") /\
  (region = 3%Z -> name = "JP") /\
  (region = 4%Z -> name = "CN") /\
  (region = 5%Z -> name = "KR") /\
  (~ In region [1; 2; 3; 4; 5]%Z -> name = "NA").
Proof.
  intros L W0 W1 name sent q.
  destruct (launch_some _ _ _ L) as (D & X & R & P).
  split; [|split; [|split]].
  - unfold run_parser, session, send, sleep, collecting, bind, emit, ret, raise.
    rewrite D, X, R, P, W0, W1. simpl.
    unfold sent, name. rewrite <- region_str_name.
    destruct (stdin_fault w 2); [reflexivity|]. simpl.
    destruct (stdin_fault w 3); [reflexivity|]. simpl.
    now destruct (collect (deadline w) (ticks w) initial).
  - exists ("{" ++ dump_member ("message", JStr "parse-lines") ++ ", "
                ++ dump_member ("id", JInt 1) ++ ", "
                ++ dump_member ("lines", JList (map (fun l => JStr (rstrip (in_chars CRLF) l)) lines))
                ++ ", " ++ dump_member ("isLive", JBool false))%string.
    unfold sent. rewrite dumps_dict_eq. cbn [map join].
    rewrite !append_assoc.
    pose proof (region_name_cases region) as N. fold name in N.
    destruct N as [N|[N|[N|[N|[N|[]]]]]]; rewrite <- N; reflexivity.
  - unfold sent. rewrite strip_dict_line. apply loads_dumps.
    cbn. rewrite stripped_lines_well_formed. 
    reflexivity.
  - unfold name. repeat split; try (intros ->; reflexivity).
    intros N. unfold region_name.
    destruct region as [|p|p]; try reflexivity.
    do 3 (try destruct p as [p|p|]; try reflexivity);
      exfalso; apply N; simpl; tauto.
Qed.

Lemma C10_region_string_witness :
  let w := calm no_fault [Tick 10000 None] in
  let name := region_name 7 in
  let sent := JDict [("message", JStr "parse-lines"); ("id", JInt 1);
                     ("lines", JList (map (fun l => JStr (rstrip (in_chars CRLF) l))
                                          ["line one"; "line two"]));
                     ("isLive", JBool false); ("region", JStr name);
                     ("selectedFights", JList [])] in
  let q := String dquote "" in
  nth_error (written (snd (run_parser w "log" "a1" 7))) 1
    = Some (dumps sent ++ String newline "")%string /\
  (exists pre,
      dumps sent
      = (pre ++ ", " ++ q ++ "region" ++ q ++ ": " ++ q ++ name ++ q
             ++ ", " ++ q ++ "selectedFights" ++ q ++ ": []}")%string) /\
  loads (strip (dumps sent ++ String newline "")) = Some sent /\
  (7%Z = 1%Z -> name = "NA") /\
  (7%Z = 2%Z -> name = "EU") /\
  (7%Z = 3%Z -> name = "JP") /\
  (7%Z = 4%Z -> name = "CN") /\
  (7%Z = 5%Z -> name = "KR") /\
  (~ In 7%Z [1; 2; 3; 4; 5]%Z -> name = "NA").
Proof.
  intros w.
  apply (C10_region_string_of_parse_lines w "log" "a1" 7 ["line one"; "line two"]);
    reflexivity.
Defined.

End Session.

(** ** The claims about the wire format *)

Module Codec.

Import Json Drain Run Spec JsonFacts.

(** What [decode] is, without the queue. *)
Lemma decode_eq (line : string) :
  decode line = if startswith line SENTINEL
                then loads (strip (slice_from 8 line))
                else None.
Proof.
  unfold decode, handle, try_put, json_loads.
  destruct (startswith line SENTINEL); [|reflexivity].
  now destruct (loads (strip (slice_from 8 line))).
Qed.

Lemma handle_eq (line : string) (q : list json) :
  handle line q = Done (match decode line with
                        | Some data => q ++ [data]
                        | None => q
                        end).
Proof.
  rewrite decode_eq. unfold handle, try_put, json_loads.
  destruct (startswith line SENTINEL); [|reflexivity].
  now destruct (loads (strip (slice_from 8 line))).
Qed.

(** The thread ends, whatever the worker prints. *)
Lemma read_thread_done (out : list string) :
  forall q, exists q', read_thread out q = Done q'.
Proof.
  induction out as [|line out IH]; intros q; simpl.
  - now exists q.
  - destruct (String.eqb line ""); [now exists q|].
    rewrite handle_eq. apply IH.
Qed.

(** C3, as stated, fails: the line that encodes a command does not start
    with the sentinel, and decoding it gives no Event. *)
Lemma C3_encoded_line_counterexample :
  startswith (encode (set_report_code "a1B2c3")) SENTINEL = false /\
  decode (encode (set_report_code "a1B2c3")) = None /\
  decode (encode collect_fights) = None.
Proof. repeat split. Qed.

(** C3, amended: the line that encodes a Command carries no sentinel, so
    decoding it gives no Event; decoding the sentinel followed by that line
    gives back the mapping of the Command, with its correlation id and its
    message kind. *)
Theorem C3_round_trip_behind_the_sentinel (c : command) :
  well_formed (to_dict c) = true ->
  decode (encode c) = None /\
  exists ev,
    decode (SENTINEL ++ encode c) = Some (JDict ev) /\
    JDict ev = to_dict c /\
    dict_get ev "id" JNull = JInt (id c) /\
    dict_get ev "message" JNull = JStr (message c).
Proof.
  intros W. split; [reflexivity|].
  exists (("message", JStr (message c)) :: ("id", JInt (id c)) :: fields c).
  split; [|now repeat split].
  rewrite decode_eq.
  change (startswith (SENTINEL ++ encode c) SENTINEL) with true.
  change (slice_from 8 (SENTINEL ++ encode c)) with (encode c).
  cbv iota. unfold encode, to_dict in *.
  now rewrite strip_dict_line, (loads_dumps _ W).
Qed.

Lemma C3_round_trip_witness :
  let c := parse_lines [String dquote "21|2024-05-01|x\y"; String "233" "b"] 2 in
  decode (encode c) = None /\
  exists ev,
    decode (SENTINEL ++ encode c) = Some (JDict ev) /\
    JDict ev = to_dict c /\
    dict_get ev "id" JNull = JInt 1 /\
    dict_get ev "message" JNull = JStr "parse-lines".
Proof.
  intros c.
  apply (C3_round_trip_behind_the_sentinel c).
  reflexivity.
Defined.

(** C4: the drain never raises, whatever the lines: a line without the
    sentinel puts nothing on the queue, a line with the sentinel whose
    remainder [json.loads] rejects puts nothing on the queue either, and in
    both cases the thread goes on with the lines that follow. *)
Theorem C4_drain_never_raises (line : string) (rest : list string) (q : list json) :
  (exists q', handle line q = Done q') /\
  (exists q', read_thread (line :: rest) q = Done q') /\
  (startswith line SENTINEL = false ->
     decode line = None /\ handle line q = Done q) /\
  (startswith line SENTINEL = true ->
   loads (strip (slice_from 8 line)) = None ->
     decode line = None /\ handle line q = Done q) /\
  (decode line = None -> line <> "" ->
     read_thread (line :: rest) q = read_thread rest q).
Proof.
  split; [|split; [|split; [|split]]].
  - rewrite handle_eq. now eexists.
  - apply read_thread_done.
  - intros H. rewrite handle_eq, decode_eq, H. now split.
  - intros H L. rewrite handle_eq, decode_eq, H, L. now split.
  - intros D N. simpl. apply String.eqb_neq in N. rewrite N, handle_eq, D.
    reflexivity.
Qed.

Lemma C4_drain_witness :
  let noise := "parser ready" in
  let broken := "__IPC__:{not json" in
  let good := (SENTINEL ++ dumps (event_of "ipc-collect-fights" (JList [JInt 4])))%string in
  decode noise = None /\
  decode broken = None /\
  read_thread [noise; broken; good] []
    = Done [event_of "ipc-collect-fights" (JList [JInt 4])].
Proof.
  intros noise broken good.
  destruct (C4_drain_never_raises noise [broken; good] []) as (_ & _ & A & _ & B).
  destruct (C4_drain_never_raises broken [good] []) as (_ & _ & _ & C & D).
  destruct (A eq_refl) as [A1 _]. destruct (C eq_refl eq_refl) as [C1 _].
  split; [exact A1|]. split; [exact C1|].
  rewrite (B A1) by discriminate. rewrite (D C1) by discriminate.
  reflexivity.
Defined.

End Codec.

(** * Further properties of the code *)

(** ** What is written to the worker *)

Module Framing.

Import Decimal Json Run Spec Cover JsonFacts.
Local Open Scope string_scope.

Lemma all_chars_app (p : ascii -> bool) (a b : string) :
  all_chars p (a ++ b) = all_chars p a && all_chars p b.
Proof.
  induction a as [|c a IH]; simpl; [reflexivity|].
  now rewrite IH, andb_assoc.
Qed.

Lemma escape_char_printable (c : ascii) : all_chars printable (escape_char c) = true.
Proof. destruct c as [[] [] [] [] [] [] [] []]; reflexivity. Qed.

Lemma escape_printable (s : string) : all_chars printable (escape s) = true.
Proof.
  induction s as [|c s IH]; [reflexivity|].
  simpl. now rewrite all_chars_app, escape_char_printable, IH.
Qed.

Lemma dump_str_printable (s : string) : all_chars printable (dump_str s) = true.
Proof.
  unfold dump_str. cbn [all_chars]. rewrite all_chars_app, escape_printable.
  reflexivity.
Qed.

Lemma uint_printable (u : uint) :
  all_chars printable (NilEmpty.string_of_uint u) = true.
Proof. induction u; simpl; auto. Qed.

Lemma dump_int_printable (z : Z) : all_chars printable (dump_int z) = true.
Proof.
  unfold dump_int. destruct (Z.to_int z); cbn [all_chars];
    now rewrite uint_printable.
Qed.

Lemma join_printable (l : list string) :
  Forall (fun s => all_chars printable s = true) l ->
  all_chars printable (join ", " l) = true.
Proof.
  induction l as [|s l IH]; intros H; [reflexivity|].
  inversion H as [|? ? Hs Hl]; subst. specialize (IH Hl).
  destruct l as [|s2 l]; [exact Hs|].
  change (join ", " (s :: s2 :: l)) with (s ++ ", " ++ join ", " (s2 :: l)).
  now rewrite !all_chars_app, Hs, IH.
Qed.

Lemma dumps_printable (v : json) : all_chars printable (dumps v) = true.
Proof.
  induction v as [|b|z|s|l IH|kvs IH] using json_ind.
  - reflexivity.
  - now destruct b.
  - apply dump_int_printable.
  - apply dump_str_printable.
  - rewrite dumps_list_eq, !all_chars_app, join_printable; [reflexivity|].
    apply Forall_map. exact IH.
  - rewrite dumps_dict_eq, !all_chars_app, join_printable; [reflexivity|].
    apply Forall_map. apply Forall_impl with (2 := IH).
    intros [k v] H. unfold dump_member. cbn [fst snd] in *.
    now rewrite !all_chars_app, dump_str_printable, H.
Qed.



Lemma rstrip_split (p : ascii -> bool) (l : string) :
  exists pad, l = rstrip p l ++ pad /\ all_chars p pad = true.
Proof.
  induction l as [|c l (pad & E & A)].
  - now exists "".
  - simpl. destruct (rstrip p l) as [|c' r'] eqn:R.
    + destruct (p c) eqn:P.
      * exists (String c l). split; [reflexivity|]. simpl. rewrite P.
        simpl in E. now rewrite E.
      * exists l. split; [reflexivity|]. simpl in E. now rewrite E.
    + exists pad. simpl. split; [|exact A]. simpl in E. now rewrite <- E.
Qed.

Lemma rstrip_last (p : ascii -> bool) (l : string) (c : ascii) :
  last_char (rstrip p l) = Some c -> p c = false.
Proof.
  revert c. induction l as [|x l IH]; intros c; simpl; [discriminate|].
  destruct (rstrip p l) as [|c' r'] eqn:R.
  - destruct (p x) eqn:P; simpl; [discriminate|]. intros H. now inversion H; subst.
  - intros H. apply IH. exact H.
Qed.

(** X2: the [lines] field of the [parse-lines] command holds one string per
    log line, in order; each is the log line without the newlines and carriage
    returns at its end, and does not end with one. *)
Theorem X2_sent_lines_lose_only_their_line_ends (lines : list string) (region : Z) :
  exists sent,
    dict_get (fields (parse_lines lines region)) "lines" JNull = JList (map JStr sent) /\
    Forall2 (fun l s =>
               (exists pad, l = s ++ pad /\ all_chars (in_chars CRLF) pad = true) /\
               (forall c, last_char s = Some c -> in_chars CRLF c = false))
            lines sent.
Proof.
  exists (map (rstrip (in_chars CRLF)) lines). split.
  - simpl. now rewrite map_map.
  - induction lines as [|l lines IH]; simpl; constructor; [|exact IH].
    split; [apply rstrip_split|apply rstrip_last].
Qed.

End Framing.

(** ** More on the collection loop *)

Module LoopMore.

Import Collector Run Spec Cover CollectorFacts RunFacts.

Lemma record_other (m : event) (st : slots) :
  on_channel FIGHTS m || on_channel MASTER m = false -> record m st = st.
Proof.
  intros H. apply orb_false_iff in H as [F M].
  rewrite record_cases, F, M. now destruct st.
Qed.

Lemma collect_skips (T : Z) (pre rest : list tick) :
  forall st,
    complete st = false ->
    before T pre = true ->
    collect T (filter relevant pre ++ rest) st = collect T (pre ++ rest) st.
Proof.
  induction pre as [|t pre IH]; intros st C B; [reflexivity|].
  simpl in B. apply andb_prop in B as [B1 B2].
  cbn [filter app collect]. unfold relevant at 1. rewrite B1.
  destruct (got t) as [[| | | | |m]|] eqn:G;
    try (cbn [app collect]; now rewrite B1, G).
  - destruct (on_channel FIGHTS m || on_channel MASTER m) eqn:R.
    + cbn [app collect]. rewrite B1, G.
      destruct (complete (record m st)) eqn:C'; [reflexivity|]. now apply IH.
    + rewrite (record_other _ _ R), C. now apply IH.
  - now apply IH.
Qed.

Lemma collect_stops_at_deadline (T : Z) (pre : list tick) (t : tick)
    (rest rest' : list tick) :
  (T <= now t)%Z ->
  forall st, collect T (pre ++ t :: rest) st = collect T (pre ++ t :: rest') st.
Proof.
  intros D. induction pre as [|x pre IH]; intros st; cbn [app collect].
  - now replace (Z.ltb (now t) T) with false by (symmetry; apply Z.ltb_ge; exact D).
  - destruct (Z.ltb (now x) T); [|reflexivity].
    destruct (got x) as [[| | | | |m]|]; try reflexivity.
    + destruct (complete (record m st)); [reflexivity|]. apply IH.
    + apply IH.
Qed.

Lemma with_ticks_same (w : world) : with_ticks w (ticks w) = w.
Proof. now destruct w. Qed.

(** A run depends on the turns of its loop through the loop only. *)
Lemma run_parser_by_loop (w : world) (ts ts' : list tick)
    (log_file report_code : string) (region : Z) :
  collect (deadline w) ts initial = collect (deadline w) ts' initial ->
  run_parser (with_ticks w ts) log_file report_code region
    = run_parser (with_ticks w ts') log_file report_code region.
Proof.
  intros H. unfold run_parser. cbn [with_ticks download_parser_if_needed script_exists
    readlines popen].
  destruct (download_parser_if_needed w); [|reflexivity].
  destruct (script_exists w); [|reflexivity]. cbn [negb].
  destruct (readlines w log_file) as [e|lines]; [reflexivity|].
  destruct (popen w); [reflexivity|].
  unfold session, send, sleep, collecting, bind, emit, ret, raise, deadline in *.
  cbn [with_ticks stdin_fault clock0 ticks] in *.
  destruct (stdin_fault w 0); [reflexivity|].
  destruct (stdin_fault w 1); [reflexivity|].
  destruct (stdin_fault w 2); [reflexivity|].
  destruct (stdin_fault w 3); [reflexivity|].
  now rewrite H.
Qed.

(** X3: turns before the deadline that find the queue empty, or take a
    mapping whose channel is neither of the two expected ones (or that has no
    channel), change nothing: without them the loop and the whole run end the
    same way. *)
Theorem X3_idle_turns_and_other_channels_change_nothing
    (w : world) (log_file report_code : string) (region : Z)
    (pre rest : list tick) :
  ticks w = pre ++ rest ->
  before (deadline w) pre = true ->
  collect (deadline w) (filter relevant pre ++ rest) initial
    = collect (deadline w) (ticks w) initial /\
  run_parser (with_ticks w (filter relevant pre ++ rest)) log_file report_code region
    = run_parser w log_file report_code region.
Proof.
  intros E B.
  assert (H : collect (deadline w) (filter relevant pre ++ rest) initial
              = collect (deadline w) (ticks w) initial).
  { rewrite E. now apply collect_skips. }
  split; [exact H|].
  transitivity (run_parser (with_ticks w (ticks w)) log_file report_code region);
    [now apply run_parser_by_loop|now rewrite with_ticks_same].
Qed.

(** X4: once the clock is read at or after the deadline nothing more is
    taken from the queue: the run does not depend on the later turns, and it
    has ended. *)
Theorem X4_nothing_is_taken_after_the_deadline
    (w : world) (log_file report_code : string) (region : Z)
    (pre : list tick) (t : tick) (rest rest' : list tick) :
  ticks w = pre ++ t :: rest ->
  (deadline w <= now t)%Z ->
  run_parser (with_ticks w (pre ++ t :: rest')) log_file report_code region
    = run_parser w log_file report_code region /\
  fst (run_parser w log_file report_code region) <> Running.
Proof.
  intros E D. split.
  - transitivity (run_parser (with_ticks w (ticks w)) log_file report_code region);
      [|now rewrite with_ticks_same].
    apply run_parser_by_loop. rewrite E. now apply collect_stops_at_deadline.
  - destruct (run_parser_cases w log_file report_code region)
      as [(text & R)|[(lines & k & e & L & R)|(lines & L & W & R)]]; rewrite R;
      try discriminate.
    destruct (collect (deadline w) (ticks w) initial) as [st|st|e|st] eqn:C;
      try discriminate.
    exfalso. apply (collect_ends (deadline w) (ticks w) initial) with (st' := st);
      [|exact C].
    rewrite E, existsb_app. simpl.
    replace (Z.leb (deadline w) (now t)) with true by (symmetry; now apply Z.leb_le).
    now rewrite orb_true_r.
Qed.

(** X5: when the loop, not yet complete, takes from the queue before the
    deadline a value that is not a mapping (a list, a number, a string,
    [None]), [run_parser] is left by an [AttributeError]: no Outcome is
    returned and the worker is not terminated. *)
Theorem X5_event_that_is_no_mapping_raises
    (w : world) (log_file report_code : string) (region : Z)
    (lines : list string) (pre : list tick) (t : tick) (rest : list tick) (v : json) :
  launch w log_file = Some lines ->
  writes_ok w = true ->
  ticks w = pre ++ t :: rest ->
  before (deadline w) (pre ++ [t]) = true ->
  mappings pre = true ->
  forallb (fun s => negb (complete s)) (states (events pre) initial) = true ->
  got t = Some v ->
  type_name v <> "dict" ->
  run_parser w log_file report_code region
    = (Raise (Exn "AttributeError"
                  ("'" ++ type_name v ++ "' object has no attribute 'get'")),
       script lines report_code region) /\
  ~ In Terminate (snd (run_parser w log_file report_code region)).
Proof.
  intros L W E B M N G K.
  unfold before in B. rewrite forallb_app in B. apply andb_prop in B as [B1 B2].
  simpl in B2. rewrite andb_true_r in B2.
  assert (R : collect (deadline w) (ticks w) initial = Raised (no_get v)).
  { rewrite E, (collect_through _ pre (t :: rest) initial B1 M N).
    cbn [collect]. rewrite B2, G. destruct v; try reflexivity. now elim K. }
  rewrite (run_parser_collects _ _ _ _ _ L W), R. split; [reflexivity|].
  cbn [snd].
  pose proof (script_no_terminate lines report_code region
                (length (script lines report_code region))) as H.
  now rewrite firstn_all in H.
Qed.

Lemma X3_idle_turns_witness :
  let ts := [Tick 100 None;
             Tick 200 (Some (event_of "ipc-progress" (JInt 40)));
             Tick 300 (Some (event_of FIGHTS (JList [JInt 7])));
             Tick 400 None;
             Tick 500 (Some (event_of MASTER (JDict [("code", JStr "a1")])));
             Tick 10000 None] in
  let w := calm no_fault ts in
  collect (deadline w) (filter relevant (firstn 5 ts) ++ skipn 5 ts) initial
    = collect (deadline w) (ticks w) initial /\
  run_parser (with_ticks w (filter relevant (firstn 5 ts) ++ skipn 5 ts)) "log" "a1" 1
    = run_parser w "log" "a1" 1.
Proof.
  intros ts w.
  apply (X3_idle_turns_and_other_channels_change_nothing w "log" "a1" 1
           (firstn 5 ts) (skipn 5 ts));
    reflexivity.
Defined.

Lemma X4_after_the_deadline_witness :
  let first := Tick 100 (Some (event_of FIGHTS (JList [JInt 7]))) in
  let late := Tick 10100 (Some (event_of MASTER (JDict [("code", JStr "a1")]))) in
  let w := calm no_fault [first; Tick 10000 None; late] in
  run_parser (with_ticks w ([first] ++ Tick 10000 None :: [])) "log" "a1" 1
    = run_parser w "log" "a1" 1 /\
  fst (run_parser w "log" "a1" 1) <> Running.
Proof.
  intros first late w.
  apply (X4_nothing_is_taken_after_the_deadline w "log" "a1" 1
           [first] (Tick 10000 None) [late] []).
  - reflexivity.
  - vm_compute. discriminate.
Defined.

Lemma X5_no_mapping_witness :
  let ts := [Tick 100 None; Tick 200 (Some (JList [JInt 1])); Tick 10000 None] in
  let w := calm no_fault ts in
  run_parser w "log" "a1" 1
    = (Raise (Exn "AttributeError" "'list' object has no attribute 'get'"),
       script ["line one"; "line two"] "a1" 1) /\
  ~ In Terminate (snd (run_parser w "log" "a1" 1)).
Proof.
  intros ts w.
  apply (X5_event_that_is_no_mapping_raises w "log" "a1" 1 ["line one"; "line two"]
           [Tick 100 None] (Tick 200 (Some (JList [JInt 1]))) [Tick 10000 None]
           (JList [JInt 1]));
    try reflexivity.
  discriminate.
Defined.

End LoopMore.


(** ** More on the drain thread *)

Module DrainMore.

Import Json Drain Run Spec Cover JsonFacts Codec.

Lemma read_thread_app (lines more : list string) :
  no_empty lines = true ->
  forall q, read_thread (lines ++ more) q = read_thread more (q ++ carried lines).
Proof.
  induction lines as [|l lines IH]; intros H q.
  - simpl. now rewrite List.app_nil_r.
  - simpl in H. apply andb_prop in H as [N H].
    apply negb_true_iff in N.
    cbn [List.app read_thread carried flat_map]. rewrite N, handle_eq, decode_eq.
    rewrite (IH H). fold (carried lines).
    destruct (startswith l SENTINEL); [|reflexivity].
    destruct (loads (strip (slice_from 8 l))); cbn [List.app].
    + now rewrite <- List.app_assoc.
    + reflexivity.
Qed.

(** X6: whatever the worker prints, as long as the lines read are not empty
    the thread does not raise, and the queue then holds what it held
    before followed, for every line that starts with the sentinel and whose
    text behind it [json.loads] does not reject, by the value [json.loads]
    gives for that text: one value per such line, in the order of the lines,
    none lost; the other lines add nothing.  An empty line - the end of the
    stream - ends the thread: what would come after it is not read.  The
    statement is in terms of [json.loads] and does not depend on which texts
    it accepts. *)
Theorem X6_drain_publishes_events_in_order
    (lines rest : list string) (q : list json) :
  no_empty lines = true ->
  read_thread lines q = Done (q ++ carried lines) /\
  read_thread (lines ++ "" :: rest) q = Done (q ++ carried lines) /\
  (forall more, read_thread (lines ++ more) q = read_thread more (q ++ carried lines)).
Proof.
  intros H. split; [|split].
  - rewrite <- (List.app_nil_r lines) at 1. now rewrite (read_thread_app _ _ H).
  - now rewrite (read_thread_app _ _ H).
  - intros more. now apply read_thread_app.
Qed.

Lemma X6_drain_order_witness :
  let q := String dquote "" in
  let fights :=
    ("__IPC__:{" ++ q ++ "channel" ++ q ++ ":" ++ q ++ "ipc-collect-fights" ++ q
       ++ "," ++ q ++ "id" ++ q ++ ":2," ++ q ++ "data" ++ q ++ ":[4]}"
       ++ String newline "")%string in
  let master :=
    ("__IPC__: {" ++ q ++ "channel" ++ q ++ ": " ++ q ++ "ipc-collect-master-info" ++ q
       ++ ", " ++ q ++ "id" ++ q ++ ": 3}" ++ String "013" (String newline ""))%string in
  let lines := ["parser ready" ++ String newline ""; fights;
                "__IPC__:{broken" ++ String newline ""; master]%string in
  carried lines
    = [JDict [("channel", JStr "ipc-collect-fights"); ("id", JInt 2);
              ("data", JList [JInt 4])];
       JDict [("channel", JStr "ipc-collect-master-info"); ("id", JInt 3)]] /\
  (read_thread lines [JNull] = Done ([JNull] ++ carried lines) /\
   read_thread (lines ++ "" :: [fights]) [JNull] = Done ([JNull] ++ carried lines) /\
   (forall more,
       read_thread (lines ++ more) [JNull] = read_thread more ([JNull] ++ carried lines))).
Proof.
  intros q fights master lines. split; [reflexivity|].
  apply (X6_drain_publishes_events_in_order lines [fights] [JNull]).
  reflexivity.
Defined.

End DrainMore.

(** ** More on whole runs *)

Module RunMore.

Import Json Collector Run Spec Cover CollectorFacts RunFacts Entry.

(** X8: a mapping returned by [run_parser] has the keys [error], or
    [error], [fights], [master], or [fights], [master], in this order; it has
    an [error] entry exactly when it is not a success, and in a success both
    payloads are truthy. *)
Theorem X8_outcome_has_one_of_three_shapes
    (w : world) (log_file report_code : string) (region : Z)
    (o : json) (tr : list action) :
  run_parser w log_file report_code region = (Return o, tr) ->
  exists d,
    o = JDict d /\
    In (map fst d) [["error"]; ["error"; "fights"; "master"]; ["fights"; "master"]] /\
    has_error o = negb (is_success o) /\
    (is_success o = true ->
       truthy (dict_get d "fights" JNull) = true /\
       truthy (dict_get d "master" JNull) = true).
Proof.
  intros R.
  destruct (run_parser_cases w log_file report_code region)
    as [(text & E)|[(lines & k & e & L & E)|(lines & L & W & E)]];
    rewrite E in R.
  - inversion R; subst. eexists. split; [reflexivity|].
    split; [simpl; tauto|]. split; [reflexivity|discriminate].
  - discriminate.
  - assert (A : exists st, o = assemble st).
    { destruct (collect (deadline w) (ticks w) initial) as [st|st|e|st];
        inversion R; now exists st. }
    destruct A as (st & ->). unfold assemble.
    destruct (truthy (fights_data st)) eqn:F, (truthy (master_data st)) eqn:M;
      simpl; eexists; (split; [reflexivity|]);
      (split; [simpl; tauto|]); (split; [reflexivity|]);
      simpl; intros; (discriminate || now split).
Qed.

Lemma written_script_prefix (lines : list string) (report_code : string) (region : Z)
    (k : nat) :
  k <= 4 ->
  written (firstn (2 + 2 * k) (script lines report_code region))
    = map encode (firstn k (commands lines report_code region)).
Proof. intros K. destruct k as [|[|[|[|[|k]]]]]; try lia; reflexivity. Qed.

Lemma firstn_before (A : Type) (n : nat) (l l' : list A) :
  n <= length l -> firstn n l = firstn n (l ++ l').
Proof.
  intros H. rewrite firstn_app.
  replace (n - length l) with 0 by lia. now rewrite firstn_O, List.app_nil_r.
Qed.

(** X9: what a run does is a prefix of one fixed script: spawn, thread,
    the four commands in the order of their ids with a pause after each, then
    terminate.  So the lines written are the first k of the four commands,
    and the worker is terminated only after all four were written. *)
Theorem X9_actions_follow_the_script
    (w : world) (log_file report_code : string) (region : Z) :
  let lines := match readlines w log_file with
               | inr ls => ls
               | inl _ => []
               end in
  let tr := snd (run_parser w log_file report_code region) in
  (exists n, tr = firstn n (script lines report_code region ++ [Terminate])) /\
  (exists k, k <= 4 /\
             written tr = map encode (firstn k (commands lines report_code region))) /\
  (In Terminate tr -> written tr = map encode (commands lines report_code region)).
Proof.
  intros lines tr. unfold tr, lines. clear tr lines.
  destruct (launch w log_file) as [ls|] eqn:L.
  - destruct (launch_some _ _ _ L) as (_ & _ & R & _). rewrite R.
    destruct (writes_ok_or_fault w) as [W|(k & e & K & Hlt & Hk)].
    + rewrite (run_parser_collects _ _ _ _ _ L W).
      destruct (collect (deadline w) (ticks w) initial); cbn [snd].
      * split; [exists 11; reflexivity|]. split; [exists 4; split; [lia|reflexivity]|intros _; reflexivity].
      * split; [exists 11; reflexivity|]. split; [exists 4; split; [lia|reflexivity]|intros _; reflexivity].
      * split; [exists 10; reflexivity|]. split; [exists 4; split; [lia|reflexivity]|intros _; reflexivity].
      * split; [exists 10; reflexivity|]. split; [exists 4; split; [lia|reflexivity]|intros _; reflexivity].
    + rewrite (run_parser_faulted _ _ _ _ _ _ _ L K Hlt Hk). cbn [snd].
      split; [|split].
      * exists (2 + 2 * k). apply firstn_before. simpl. lia.
      * exists k. split; [lia|]. apply written_script_prefix. lia.
      * intros H. now apply script_no_terminate in H.
  - destruct (launch_none w log_file report_code region L) as (text & E).
    rewrite E. cbn [snd]. split; [now exists 0|].
    split; [exists 0; split; [lia|reflexivity]|]. intros [].
Qed.

(** X10: in the whole process, where what [run_parser] learns of the bundle
    is what [download_parser_if_needed] returned, the worker is spawned
    exactly when the bundle is obtained and there, the log file is read and
    [Popen] succeeds.  Otherwise [run_parser] takes no step on the worker side
    - no process, no thread, no write, no pause, no terminate - and returns a
    mapping with an error descriptor only, one text per check that failed;
    what has happened by then is what [download_parser_if_needed] did, which
    after a failed download is at least the status line it printed. *)
Theorem X10_worker_is_spawned_only_after_every_check
    (h : host) (log_file report_code : string) (region : Z) :
  let w := world_of h in
  let fetched := Provider.download_parser_if_needed (provider h) in
  let run := run_parser w log_file report_code region in
  (In Spawn (snd run) <-> exists lines, launch w log_file = Some lines) /\
  (launch w log_file = None ->
     snd run = [] /\ exists text, fst run = Return (JDict [("error", JStr text)])) /\
  (fst fetched = false ->
     run = (Return (JDict [("error", JStr "Parser download failed")]), []) /\
     exists tail, snd fetched = Provider.Stdout Provider.status_line :: tail) /\
  (fst fetched = true ->
     (script_exists w = false ->
        run = (Return (JDict [("error", JStr "Parser script not found")]), [])) /\
     (script_exists w = true ->
        forall e, readlines w log_file = inl e ->
          run = (Return (JDict [("error", JStr ("Failed to read log file: " ++ e))]),
                 [])) /\
     (script_exists w = true ->
        forall lines e, readlines w log_file = inr lines -> popen w = Some e ->
          run = (Return (JDict [("error", JStr ("Failed to start Node.js: " ++ e))]),
                 []))).
Proof.
  intros w fetched run.
  assert (D : download_parser_if_needed w = fst fetched) by reflexivity.
  unfold run. clear run. split; [|split; [|split]].
  - split.
    + intros H. destruct (launch w log_file) as [ls|] eqn:L; [now exists ls|].
      destruct (launch_none w log_file report_code region L) as (text & E).
      rewrite E in H. destruct H.
    + intros (lines & L).
      destruct (writes_ok_or_fault w) as [W|(k & e & K & Hlt & Hk)].
      * rewrite (run_parser_collects _ _ _ _ _ L W).
        destruct (collect _ _ _); simpl; now left.
      * rewrite (run_parser_faulted _ _ _ _ _ _ _ L K Hlt Hk). simpl. now left.
  - intros L. destruct (launch_none w log_file report_code region L) as (text & E).
    rewrite E. split; [reflexivity|]. now exists text.
  - intros F. split.
    + unfold run_parser. now rewrite D, F.
    + clear D. unfold fetched in *. clear fetched w.
      unfold Provider.download_parser_if_needed in *.
      destruct (Provider.bundle_exists (provider h)
                && Z.ltb (Provider.clock_age (provider h)
                          - Provider.bundle_mtime (provider h)) Provider.DAY);
        [discriminate|].
      cbv zeta.
      destruct (Provider.urlopen _ _); [eexists; reflexivity|].
      destruct (Provider.search_parser_src _); [|eexists; reflexivity].
      destruct (Provider.urlopen _ _); [eexists; reflexivity|].
      destruct (Provider.open_bundle _); [eexists; reflexivity|].
      destruct (Provider.write_bundle _ _); eexists; reflexivity.
  - intros F. split; [|split].
    + intros X. unfold run_parser. now rewrite D, F, X.
    + intros X e R. unfold run_parser. now rewrite D, F, X, R.
    + intros X lines e R P. unfold run_parser. now rewrite D, F, X, R, P.
Qed.

Lemma X8_outcome_shape_witness :
  let w := calm no_fault [Tick 100 (Some (event_of FIGHTS (JList [JInt 7])));
                          Tick 10000 None] in
  let o := failure (Slots (JList [JInt 7]) JNull) in
  exists d,
    o = JDict d /\
    In (map fst d) [["error"]; ["error"; "fights"; "master"]; ["fights"; "master"]] /\
    has_error o = negb (is_success o) /\
    (is_success o = true ->
       truthy (dict_get d "fights" JNull) = true /\
       truthy (dict_get d "master" JNull) = true).
Proof.
  intros w o.
  apply (X8_outcome_has_one_of_three_shapes w "log" "a1" 1 o
           (script ["line one"; "line two"] "a1" 1 ++ [Terminate])).
  reflexivity.
Defined.

End RunMore.

(** ** [main] *)

Module EntryFacts.

Import Json Collector Drain Run Spec Cover JsonFacts CollectorFacts RunFacts Entry.

Lemma dict_get_well_formed (d : list (string * json)) (k : string) (default : json) :
  forallb (fun kv => well_formed (snd kv)) d = true ->
  well_formed default = true ->
  well_formed (dict_get d k default) = true.
Proof.
  induction d as [|[k' v] d IH]; simpl; intros H W; [exact W|].
  apply andb_prop in H as [H1 H2].
  destruct (String.eqb k' k); [exact H1|now apply IH].
Qed.

Lemma record_sound (m : event) (st : slots) :
  well_formed (JDict m) = true -> sound st = true -> sound (record m st) = true.
Proof.
  intros W S. simpl in W. apply andb_prop in W as [_ W].
  unfold sound in *. apply andb_prop in S as [S1 S2].
  assert (P : well_formed (payload m) = true)
    by (apply dict_get_well_formed; [exact W|reflexivity]).
  rewrite record_cases.
  destruct (on_channel FIGHTS m); simpl; [now rewrite P, S2|].
  destruct (on_channel MASTER m); simpl; [now rewrite P, S1|now rewrite S1, S2].
Qed.

Lemma collect_sound (T : Z) (ts : list tick) :
  well_formed_ticks ts = true ->
  forall st st',
    sound st = true ->
    collect T ts st = Broke st' \/ collect T ts st = TimedOut st' ->
    sound st' = true.
Proof.
  induction ts as [|t ts IH]; intros W st st' S H; simpl in H.
  - now destruct H.
  - simpl in W. apply andb_prop in W as [W1 W2].
    destruct (Z.ltb (now t) T).
    + destruct (got t) as [[| | | | |m]|]; try (now destruct H).
      * pose proof (record_sound m st W1 S) as S'.
        destruct (complete (record m st)).
        -- destruct H as [H|H]; inversion H. now subst.
        -- now apply (IH W2 _ _ S' H).
      * now apply (IH W2 _ _ S H).
    + destruct H as [H|H]; inversion H. now subst.
Qed.

Lemma assemble_well_formed (st : slots) :
  sound st = true -> well_formed (assemble st) = true.
Proof.
  unfold sound, assemble. intros S. apply andb_prop in S as [S1 S2].
  destruct (negb (truthy (fights_data st)) || negb (truthy (master_data st)));
    simpl; now rewrite S1, S2.
Qed.

Lemma outcome_well_formed (w : world) (log_file report_code : string) (region : Z)
    (o : json) (tr : list action) :
  well_formed_ticks (ticks w) = true ->
  run_parser w log_file report_code region = (Return o, tr) ->
  well_formed o = true.
Proof.
  intros W R.
  destruct (run_parser_cases w log_file report_code region)
    as [(text & E)|[(lines & k & e & L & E)|(lines & L & _ & E)]];
    rewrite E in R.
  - now inversion R.
  - discriminate.
  - destruct (collect (deadline w) (ticks w) initial) as [st|st|e|st] eqn:C;
      inversion R; subst; apply assemble_well_formed.
    + apply (collect_sound _ _ W initial st eq_refl (or_introl C)).
    + apply (collect_sound _ _ W initial st eq_refl (or_intror C)).
Qed.

(** X11: when [main] ends with status 0, [run_parser] has returned an
    Outcome - a failure Outcome too - and the last line printed is its JSON
    text: printable ASCII, which [json.loads] maps back to the Outcome. *)
Theorem X11_main_prints_the_outcome_as_one_json_line
    (int : string -> attempt Z) (h : host) (argv : list string) (out : list string) :
  well_formed_ticks (ticks (rest h)) = true ->
  main int h argv = (out, Exit 0) ->
  exists region o tr,
    int (nth 3 argv "") = Done region /\
    run_parser (world_of h) (nth 1 argv "") (nth 2 argv "") region = (Return o, tr) /\
    out = provider_output h ++ [dumps o] /\
    all_chars printable (dumps o) = true /\
    loads (dumps o) = Some o.
Proof.
  intros W M. unfold main in M.
  destruct (Nat.ltb (length argv) 4); [discriminate|].
  destruct (int (nth 3 argv "")) as [region|e]; [|discriminate].
  destruct (run_parser (world_of h) (nth 1 argv "") (nth 2 argv "") region)
    as [[o|e|] tr] eqn:R; try discriminate.
  inversion M; subst. exists region, o, tr.
  split; [reflexivity|]. split; [exact R|]. split; [reflexivity|]. split.
  - apply Framing.dumps_printable.
  - apply loads_dumps. exact (outcome_well_formed (world_of h) _ _ _ _ _ W R).
Qed.

Lemma X11_main_witness :
  let int := fun _ : string => Done 2%Z in
  let ts := [Tick 100 (Some (event_of FIGHTS (JList [JInt 7])));
             Tick 200 (Some (event_of MASTER (JDict [("code", JStr "a1")])))] in
  let h := Host (Provider.Env true 0 1000 2000 (fun _ => inl "offline") None
                              (fun _ => None))
                (calm no_fault ts) in
  let argv := ["fflogs_parser.py"; "combat.log"; "a1"; "2"] in
  let out := [dumps (success (Slots (JList [JInt 7]) (JDict [("code", JStr "a1")])))] in
  exists region o tr,
    int (nth 3 argv "") = Done region /\
    run_parser (world_of h) (nth 1 argv "") (nth 2 argv "") region = (Return o, tr) /\
    out = provider_output h ++ [dumps o] /\
    all_chars printable (dumps o) = true /\
    loads (dumps o) = Some o.
Proof.
  intros int ts h argv out.
  apply (X11_main_prints_the_outcome_as_one_json_line int h argv out);
    reflexivity.
Defined.

End EntryFacts.

(** ** [download_parser_if_needed] *)

Module ProviderFacts.

Import Json Spec Cover JsonFacts Provider.

Lemma startswith_split (s p : string) :
  startswith s p = true -> s = (p ++ slice_from (String.length p) s)%string.
Proof.
  revert s. induction p as [|c p IH]; intros s H; [reflexivity|].
  destruct s as [|x s]; [discriminate|]. simpl in H.
  apply andb_prop in H as [H1 H2]. apply Ascii.eqb_eq in H1. subst x.
  simpl. now rewrite <- (IH s H2).
Qed.

Lemma startswith_app (p r : string) : startswith (p ++ r) p = true.
Proof. induction p as [|c p IH]; [reflexivity|]. simpl. now rewrite Ascii.eqb_refl. Qed.

Lemma slice_from_app (p r : string) : slice_from (String.length p) (p ++ r) = r.
Proof. induction p as [|c p IH]; [now destruct r|]. exact IH. Qed.

Lemma find_sound (needle s a b : string) :
  find needle s = Some (a, b) -> s = (a ++ needle ++ b)%string.
Proof.
  revert a b. induction s as [|c s IH]; intros a b H.
  - simpl in H. destruct (startswith "" needle) eqn:S; [|discriminate].
    inversion H; subst. now apply startswith_split.
  - cbn [find] in H. destruct (startswith (String c s) needle) eqn:S.
    + inversion H; subst. now apply startswith_split.
    + destruct (find needle s) as [[a' b']|]; [|discriminate].
      injection H as <- <-. simpl. now rewrite <- (IH a' b' eq_refl).
Qed.

Lemma find_complete (needle a b : string) :
  find needle (a ++ needle ++ b) <> None.
Proof.
  induction a as [|c a IH].
  - simpl append. destruct (needle ++ b)%string eqn:E;
      cbn [find]; rewrite <- E, startswith_app; discriminate.
  - simpl append. cbn [find].
    destruct (startswith _ needle); [discriminate|].
    destruct (find needle (a ++ needle ++ b)) as [[a' b']|]; [discriminate|].
    now elim IH.
Qed.

Lemma until_quote_sound (s a : string) :
  until_quote s = Some a ->
  no_quote a = true /\ exists b, s = (a ++ String dquote b)%string.
Proof.
  revert a. induction s as [|c s IH]; intros a H; [discriminate|].
  simpl in H. destruct (Ascii.eqb c dquote) eqn:Q.
  - inversion H; subst. apply Ascii.eqb_eq in Q. subst c.
    split; [reflexivity|now exists s].
  - destruct (until_quote s) as [a'|]; [|discriminate].
    injection H as <-. destruct (IH a' eq_refl) as (N & b & E).
    split; [unfold no_quote in *; simpl; now rewrite Q, N|].
    exists b. simpl. now rewrite <- E.
Qed.

Lemma until_quote_complete (a b : string) :
  no_quote a = true -> until_quote (a ++ String dquote b) = Some a.
Proof.
  induction a as [|c a IH]; intros N; [reflexivity|].
  unfold no_quote in N. simpl in N. apply andb_prop in N as [N1 N2].
  apply negb_true_iff in N1. simpl. now rewrite N1, (IH N2).
Qed.

Lemma occurs_before_end_iff (needle s : string) :
  occurs_before_end needle s = true <->
  exists a b, s = (a ++ needle ++ b)%string /\ b <> "".
Proof.
  split.
  - induction s as [|c s IH]; cbn [occurs_before_end]; intros H.
    + rewrite orb_false_r in H. apply andb_prop in H as [H1 H2].
      apply Nat.ltb_lt in H2. simpl in H2. lia.
    + apply orb_prop in H as [H|H].
      * apply andb_prop in H as [H1 H2]. apply Nat.ltb_lt in H2.
        pose proof (startswith_split _ _ H1) as E.
        exists "", (slice_from (String.length needle) (String c s)).
        split; [exact E|]. intros Z. rewrite Z, JsonFacts.append_nil_r in E.
        rewrite <- E in H2. lia.
      * destruct (IH H) as (a & b & E & N). exists (String c a), b.
        split; [simpl; now rewrite <- E|exact N].
  - intros (a & b & E & N). subst s. induction a as [|c a IH].
    + simpl append. destruct (needle ++ b)%string eqn:X.
      * destruct needle; [simpl in X; congruence|discriminate].
      * cbn [occurs_before_end]. rewrite <- X, startswith_app, JsonFacts.length_append.
        replace (Nat.ltb _ _) with true; [reflexivity|].
        symmetry. apply Nat.ltb_lt. destruct b; [congruence|simpl; lia].
    + simpl append. cbn [occurs_before_end]. rewrite IH. now rewrite orb_true_r.
Qed.

Lemma occurs_inside_iff (needle s : string) :
  occurs_inside needle s = true <->
  exists a b, s = (a ++ needle ++ b)%string /\ a <> "" /\ b <> "".
Proof.
  unfold occurs_inside. split.
  - destruct s as [|c s]; [discriminate|]. intros H.
    apply occurs_before_end_iff in H as (a & b & E & N).
    exists (String c a), b. subst s. now repeat split.
  - intros (a & b & E & Na & Nb). destruct a as [|c a]; [congruence|].
    subst s. simpl. apply occurs_before_end_iff. now exists a, b.
Qed.

Lemma search_parser_src_sound (html u : string) :
  search_parser_src html = Some u ->
  no_quote u = true /\ occurs_inside "parser-ff" u = true /\
  exists pre post, html = (pre ++ SRC ++ u ++ String dquote post)%string.
Proof.
  induction html as [|c html IH]; intros H; [discriminate|].
  assert (K : search_parser_src html = Some u ->
              no_quote u = true /\ occurs_inside "parser-ff" u = true /\
              exists pre post,
                String c html = (pre ++ SRC ++ u ++ String dquote post)%string).
  { intros H'. destruct (IH H') as (N & O & pre & post & E).
    repeat split; try assumption. exists (String c pre), post. now rewrite E. }
  cbn [search_parser_src] in H.
  destruct (startswith (String c html) SRC) eqn:S; [|now apply K].
  destruct (until_quote (slice_from 5 (String c html))) as [value|] eqn:U;
    [|now apply K].
  destruct (occurs_inside "parser-ff" value) eqn:O; [|now apply K].
  inversion H; subst.
  destruct (until_quote_sound _ _ U) as (N & post & E).
  repeat split; try assumption. exists "", post.
  rewrite (startswith_split _ _ S). change (String.length SRC) with 5.
  now rewrite E.
Qed.

Lemma search_at_src (x value : string) :
  until_quote x = Some value ->
  occurs_inside "parser-ff" value = true ->
  search_parser_src (SRC ++ x) = Some value.
Proof.
  intros U O. unfold SRC. simpl. now rewrite U, O.
Qed.

Lemma search_parser_src_complete (pre u post : string) :
  no_quote u = true ->
  occurs_inside "parser-ff" u = true ->
  search_parser_src (pre ++ SRC ++ u ++ String dquote post) <> None.
Proof.
  intros N O. induction pre as [|c pre IH].
  - cbn [append]. rewrite (search_at_src _ u); [discriminate| |exact O].
    now apply until_quote_complete.
  - cbn [append search_parser_src].
    destruct (startswith _ SRC); [|exact IH].
    destruct (until_quote _) as [value|]; [|exact IH].
    destruct (occurs_inside "parser-ff" value); [discriminate|exact IH].
Qed.

(** X14: the parser address taken from the page is the value of a [src]
    attribute of the page: it has no double quote and has [parser-ff] in it
    with a character before and a character after; and a page that holds such
    an attribute yields an address. *)
Theorem X14_parser_url_is_a_quoted_src_value (html : string) :
  (forall u,
      search_parser_src html = Some u ->
      no_quote u = true /\
      (exists a b, u = (a ++ "parser-ff" ++ b)%string /\ a <> "" /\ b <> "") /\
      exists pre post, html = (pre ++ SRC ++ u ++ String dquote post)%string) /\
  (forall pre a b post,
      html = (pre ++ SRC ++ (a ++ "parser-ff" ++ b) ++ String dquote post)%string ->
      no_quote (a ++ "parser-ff" ++ b) = true -> a <> "" -> b <> "" ->
      search_parser_src html <> None).
Proof.
  split.
  - intros u H. destruct (search_parser_src_sound _ _ H) as (N & O & E).
    split; [exact N|]. split; [now apply occurs_inside_iff|exact E].
  - intros pre a b post E N Na Nb. subst html.
    apply search_parser_src_complete; [exact N|].
    apply occurs_inside_iff. now exists a, b.
Qed.

(** X15: the glue code taken from the page lies between an opening script
    tag of type text/javascript and a closing script tag of the page, and
    holds [ipcCollectFights]. *)
Theorem X15_glue_lies_between_script_tags (html g : string) :
  search_glue html = Some g ->
  exists pre a b post,
    html = (pre ++ SCRIPT_OPEN ++ g ++ SCRIPT_CLOSE ++ post)%string /\
    g = (a ++ GLUE_MARK ++ b)%string.
Proof.
  unfold search_glue.
  destruct (find SCRIPT_OPEN html) as [[pre r1]|] eqn:F1; [|discriminate].
  destruct (find GLUE_MARK r1) as [[a r2]|] eqn:F2; [|discriminate].
  destruct (find SCRIPT_CLOSE r2) as [[b post]|] eqn:F3; [|discriminate].
  intros H. inversion H; subst.
  apply find_sound in F1, F2, F3. exists pre, a, b, post.
  split; [|reflexivity].
  rewrite F1, F2, F3. now rewrite !JsonFacts.append_assoc.
Qed.

(** X12: with a bundle less than a day old the call returns [True] and
    does nothing: no line printed, no request, the file not touched.
    Otherwise it first prints the status line and requests the parser page
    with the User-Agent header, and does at most three things more.  When it
    returns [False] no bundle has been written; the file of an earlier run is
    then as it was, except in one case: both fetches succeeded and the file
    was opened for writing, which emptied it, and the write raised - the
    call then ends by printing the error line. *)
Theorem X12_cached_bundle_is_kept (e : env) :
  let run := download_parser_if_needed e in
  (fresh e = true -> run = (true, [])) /\
  (fresh e = false ->
     exists tail,
       snd run = Stdout status_line
                   :: Request (page_url (clock_ts e)) (Some USER_AGENT) :: tail /\
       length tail <= 3) /\
  (fst run = false ->
     (forall content, ~ In (WriteFile content) (snd run)) /\
     (In Truncate (snd run) <->
        exists html u code err,
          urlopen e (page_url (clock_ts e)) = inr html /\
          search_parser_src html = Some u /\
          urlopen e u = inr code /\
          open_bundle e = None /\
          write_bundle e (bundle code (match search_glue html with
                                       | Some g => g
                                       | None => ""
                                       end)) = Some err /\
          snd run = [Stdout status_line;
                     Request (page_url (clock_ts e)) (Some USER_AGENT);
                     Request u None; Truncate; Stdout (error_line err)])).
Proof.
  intros run. unfold run, download_parser_if_needed, fresh. clear run.
  destruct (bundle_exists e && Z.ltb (clock_age e - bundle_mtime e) DAY).
  { split; [reflexivity|]. split; discriminate. }
  split; [discriminate|]. cbv zeta.
  destruct (urlopen e (page_url (clock_ts e))) as [err|html] eqn:P.
  { split; [intros _; eexists; split; [reflexivity|simpl; lia]|].
    intros _. split; [intros c H; simpl in H; intuition discriminate|].
    split; [intros H; simpl in H; intuition discriminate|].
    intros (html' & u' & code' & err' & H & _). discriminate. }
  destruct (search_parser_src html) as [u|] eqn:S.
  2:{ split; [intros _; eexists; split; [reflexivity|simpl; lia]|].
      intros _. split; [intros c H; simpl in H; intuition discriminate|].
      split; [intros H; simpl in H; intuition discriminate|].
      intros (html' & u' & code' & err' & H & S' & _).
      inversion H; subst. congruence. }
  destruct (urlopen e u) as [err|code] eqn:U.
  { split; [intros _; eexists; split; [reflexivity|simpl; lia]|].
    intros _. split; [intros c H; simpl in H; intuition discriminate|].
    split; [intros H; simpl in H; intuition discriminate|].
    intros (html' & u' & code' & err' & H & S' & U' & _).
    inversion H; subst. congruence. }
  destruct (open_bundle e) as [err|] eqn:O.
  { split; [intros _; eexists; split; [reflexivity|simpl; lia]|].
    intros _. split; [intros c H; simpl in H; intuition discriminate|].
    split; [intros H; simpl in H; intuition discriminate|].
    intros (html' & u' & code' & err' & _ & _ & _ & O' & _). discriminate. }
  destruct (write_bundle e _) as [err|] eqn:W.
  { split; [intros _; eexists; split; [reflexivity|simpl; lia]|].
    intros _. split; [intros c H; simpl in H; intuition discriminate|].
    split; [intros _|intros _; simpl; tauto].
    exists html, u, code, err. repeat split; assumption || reflexivity. }
  split; [intros _; eexists; split; [reflexivity|simpl; lia]|].
  discriminate.
Qed.

(** X13: when the call returns [True] without a fresh bundle, the page was
    fetched, a parser address was found in it and fetched with the second and
    last request, the file was opened for writing, and what was written to
    it is the runner code, the parser code and the glue code (empty when the
    page has none), two newlines between them. *)
Theorem X13_downloaded_bundle_is_runner_parser_glue (e : env) :
  fresh e = false ->
  fst (download_parser_if_needed e) = true ->
  exists html u code,
    urlopen e (page_url (clock_ts e)) = inr html /\
    search_parser_src html = Some u /\
    urlopen e u = inr code /\
    let glue := match search_glue html with
                | Some g => g
                | None => ""
                end in
    let full := (runner_code ++ String newline (String newline "") ++ code
                   ++ String newline (String newline "") ++ glue)%string in
    open_bundle e = None /\
    write_bundle e full = None /\
    snd (download_parser_if_needed e)
      = [Stdout status_line; Request (page_url (clock_ts e)) (Some USER_AGENT);
         Request u None; Truncate; WriteFile full].
Proof.
  unfold download_parser_if_needed, fresh. intros F. rewrite F.
  destruct (urlopen e (page_url (clock_ts e))) as [err|html] eqn:P; [discriminate|].
  destruct (search_parser_src html) as [u|] eqn:S; [|discriminate].
  destruct (urlopen e u) as [err|code] eqn:U; [discriminate|].
  cbv zeta.
  destruct (open_bundle e) eqn:O; [discriminate|].
  destruct (write_bundle e _) eqn:W; [discriminate|].
  intros _. exists html, u, code.
  split; [reflexivity|]. split; [exact S|]. split; [exact U|].
  split; [reflexivity|]. split; [exact W|reflexivity].
Qed.

Lemma X13_downloaded_bundle_witness :
  let address := "https://cdn.example/parser-ff.7.js" in
  let page := ("<html><script src=" ++ String dquote address
                 ++ String dquote "></script></html>")%string in
  let e := Env false 0 0 5
             (fun url => if String.eqb url address then inr "PARSER" else inr page)
             None (fun _ => None) in
  exists html u code,
    urlopen e (page_url (clock_ts e)) = inr html /\
    search_parser_src html = Some u /\
    urlopen e u = inr code /\
    let glue := match search_glue html with
                | Some g => g
                | None => ""
                end in
    let full := (runner_code ++ String newline (String newline "") ++ code
                   ++ String newline (String newline "") ++ glue)%string in
    open_bundle e = None /\
    write_bundle e full = None /\
    snd (download_parser_if_needed e)
      = [Stdout status_line; Request (page_url (clock_ts e)) (Some USER_AGENT);
         Request u None; Truncate; WriteFile full].
Proof.
  intros address page e.
  apply (X13_downloaded_bundle_is_runner_parser_glue e); reflexivity.
Defined.

Lemma X15_glue_witness :
  let html := ("<p>" ++ SCRIPT_OPEN ++ "var a;" ++ SCRIPT_CLOSE ++ SCRIPT_OPEN
                 ++ "function ipcCollectFights() {}" ++ SCRIPT_CLOSE ++ "</p>")%string in
  let g := ("var a;" ++ SCRIPT_CLOSE ++ SCRIPT_OPEN
              ++ "function ipcCollectFights() {}")%string in
  exists pre a b post,
    html = (pre ++ SCRIPT_OPEN ++ g ++ SCRIPT_CLOSE ++ post)%string /\
    g = (a ++ GLUE_MARK ++ b)%string.
Proof.
  intros html g.
  apply (X15_glue_lies_between_script_tags html g).
  reflexivity.
Defined.

End ProviderFacts.
